(** * Anaerobic co-digestion model: Modified Gompertz kinetics

    A shallow embedding of [anaerobic_codigestion_model.py]: the two
    parameter tables, the mixture-property calculator, the Modified Gompertz
    curve and the simulation driver, followed by the properties proved about
    them.

    Number model.  Python [float] values are read as real numbers ([R]) and
    [np.exp] as the real exponential, so [np.e] is [exp 1]; rounding,
    overflow and underflow of binary64 arithmetic are outside the model.
    Python [int] values are [Z].  What the model keeps of Python's
    arithmetic is its failure mode: [/] raises [ZeroDivisionError] on a zero
    divisor.  Properties that rounding decides are stated for exact
    arithmetic and say so; module [Binary64] evaluates the curve on binary64
    floats where IEEE 754 fixes the value of the exponential. *)

From Stdlib Require Import Reals Lra Lia ZArith Bool String Ascii List Sorted DecimalString.
From Stdlib Require PrimFloat.
Import ListNotations.

Local Open Scope R_scope.

(** ** The Python runtime pieces the module relies on *)

Module Py.

(** The built-in exception classes that the module can raise. *)
Inductive exn : Type :=
| ValueError (msg : string)
| ZeroDivisionError
| KeyError (key : string).

Inductive result (A : Type) : Type :=
| Ok (a : A)
| Raise (e : exn).

Arguments Ok {A} a.
Arguments Raise {A} e.

Class Monad (M : Type -> Type) : Type := {
  ret : forall {A : Type}, A -> M A;
  bind : forall {A B : Type}, M A -> (A -> M B) -> M B
}.

#[export] Instance result_monad : Monad result := {
  ret := fun A a => Ok a;
  bind := fun A B m k =>
    match m with
    | Ok a => k a
    | Raise e => Raise e
    end
}.

(** [x if x is not None else d], the idiom behind every optional argument. *)
Definition or_default {A : Type} (d : A) (o : option A) : A :=
  match o with
  | Some a => a
  | None => d
  end.

(** [x / y] on floats. *)
Definition truediv (x y : R) : result R :=
  if Req_dec_T y 0 then Raise ZeroDivisionError else Ok (x / y).

(** [a / b] on ints (true division: the quotient as a float). *)
Definition int_truediv (a b : Z) : result R :=
  if (b =? 0)%Z then Raise ZeroDivisionError else Ok (IZR a / IZR b).

(** [str(n)] for an int. *)
Definition str_int (n : Z) : string :=
  NilZero.string_of_int (Z.to_int n).

(** A character that [repr] prints as itself between single quotes:
    printable ASCII other than the single quote and the backslash. *)
Definition plain_char (c : ascii) : bool :=
  let n := nat_of_ascii c in
  (32 <=? n)%nat && (n <=? 126)%nat && negb (n =? 39)%nat && negb (n =? 92)%nat.

Fixpoint plain_str (s : string) : bool :=
  match s with
  | EmptyString => true
  | String c s' => plain_char c && plain_str s'
  end.

(** [repr(s)] for a str made of plain characters (every key of the tables
    below is one): the text between single quotes. *)
Definition repr_str (s : string) : string :=
  ("'" ++ s ++ "'")%string.

(** [sep.join(l)]. *)
Fixpoint join (sep : string) (l : list string) : string :=
  match l with
  | [] => EmptyString
  | [s] => s
  | s :: l' => (s ++ sep ++ join sep l')%string
  end.

(** [repr(l)] for a list of str. *)
Definition repr_list (l : list string) : string :=
  ("[" ++ join ", " (map repr_str l) ++ "]")%string.

(** A [dict] with str keys, in insertion order. *)
Definition dict (V : Type) : Type := list (string * V).

Definition keys {V : Type} (d : dict V) : list string := map fst d.

(** [k in d]. *)
Definition contains {V : Type} (k : string) (d : dict V) : bool :=
  existsb (String.eqb k) (keys d).

(** [d[k]]. *)
Fixpoint getitem {V : Type} (d : dict V) (k : string) : result V :=
  match d with
  | [] => Raise (KeyError k)
  | (k', v) :: d' => if String.eqb k k' then Ok v else getitem d' k
  end.

End Py.

Import Py.

Notation "x <- m ;; k" := (bind m (fun x => k))
  (at level 61, m at next level, right associativity).

(** ** NumPy: scalars, arrays and [linspace] *)

Module Np.

(** The value of a [float ou array] argument: a scalar or a 1-d array. *)
Inductive arraylike : Type :=
| Scalar (x : R)
| Array (xs : list R).

(** Broadcasting of a scalar function over an [arraylike]. *)
Definition broadcast (f : R -> R) (a : arraylike) : arraylike :=
  match a with
  | Scalar x => Scalar (f x)
  | Array xs => Array (map f xs)
  end.

(** [np.e] and [np.exp]. *)
Definition e : R := exp 1.

Definition np_exp (a : arraylike) : arraylike := broadcast exp a.

(** [a[-1]] of a 1-d array. *)
Definition last_entry (a : arraylike) : option R :=
  match a with
  | Scalar _ => None
  | Array xs => List.last (map Some xs) None
  end.

(** [np.arange(0, num)] as floats. *)
Definition arange (num : Z) : list R :=
  map (fun i => INR i) (seq 0 (Z.to_nat num)).

(** [y[-1] = stop]. *)
Fixpoint set_last (y : list R) (stop : R) : list R :=
  match y with
  | [] => []
  | [_] => [stop]
  | x :: y' => x :: set_last y' stop
  end.

(** [np.linspace(start, stop, num)] with its default [endpoint=True]:
    [num] samples [start + i * step], the last one set to [stop]. *)
Definition linspace (start stop : R) (num : Z) : result arraylike :=
  if (num <? 0)%Z then
    Raise (ValueError ("Number of samples, " ++ str_int num ++ ", must be non-negative."))
  else
    let div := (num - 1)%Z in
    let y := arange num in
    let delta := stop - start in
    let y :=
      if (0 <? div)%Z then
        let step := delta / IZR div in
        if Req_dec_T step 0
        then map (fun yi => yi / IZR div * delta) y
        else map (fun yi => yi * step) y
      else map (fun yi => yi * delta) y in
    let y := map (fun yi => yi + start) y in
    let y := if (1 <? num)%Z then set_last y stop else y in
    Ok (Array y).

End Np.

Import Np.

(** ** Parameter tables *)

(** One entry of [SUBSTRATE_PROPERTIES] (Table 1). *)
Module Substrate.
Record t : Type := mk {
  pH : R;
  TS_percent : R;
  VS_percent : R;
  C_N : R;
  sCOD_g_L : R;
  tCOD_g_L : R
}.
End Substrate.

(** The substrates dict: its two entries ['FW'] and ['CM']. *)
Record Substrates : Type := mkSubstrates {
  FW : Substrate.t;
  CM : Substrate.t
}.

Definition SUBSTRATE_PROPERTIES : Substrates := {|
  FW := {| Substrate.pH := 4.9;
           Substrate.TS_percent := 27.4;
           Substrate.VS_percent := 91.20;
           Substrate.C_N := 20.79;
           Substrate.sCOD_g_L := 74.1;
           Substrate.tCOD_g_L := 205.8 |};
  CM := {| Substrate.pH := 7.4;
           Substrate.TS_percent := 19.2;
           Substrate.VS_percent := 83.07;
           Substrate.C_N := 8.22;
           Substrate.sCOD_g_L := 13.5;
           Substrate.tCOD_g_L := 51.2 |}
|}.

(** One entry of [GOMPERTZ_PARAMS] (Table 6). *)
Module Gompertz.
Record t : Type := mk {
  G0 : R;
  k_max : R;
  lambda_ : R;
  FW_percent : R;
  description : string
}.
End Gompertz.

Definition GOMPERTZ_PARAMS : dict Gompertz.t := [
  ("Ratio-8_0"%string, Gompertz.mk 139.75 9.96 0.77 100.0 "Resíduos Alimentares (100%)");
  ("Ratio-7_1"%string, Gompertz.mk 226.85 19.33 0.20 87.5 "RA 87.5% + EB 12.5%");
  ("Ratio-6_2"%string, Gompertz.mk 326.53 26.96 0.43 75.0 "ÓTIMO: RA 75% + EB 25%");
  ("Ratio-4_4"%string, Gompertz.mk 279.38 20.98 0.00 50.0 "Equilibrado: RA 50% + EB 50%");
  ("Ratio-2_6"%string, Gompertz.mk 240.81 16.74 0.00 25.0 "RA 25% + EB 75%");
  ("Ratio-1_7"%string, Gompertz.mk 213.48 12.82 0.00 12.5 "RA 12.5% + EB 87.5%")
].

(** [SIMULATION_PARAMS]. *)
Module SimulationParams.
Definition t_max : R := 25.
Definition n_points : Z := 200.
Definition TS_target : R := 8.0.
End SimulationParams.

(** ** Mixture properties *)

(** The dict returned by [calc_mixture_properties]. *)
Module Mixture.
Record t : Type := mk {
  ratio : string;
  FW_percent : R;
  CM_percent : R;
  pH : R;
  TS_percent : R;
  VS_percent : R;
  C_N : R;
  sCOD_g_L : R;
  tCOD_g_L : R
}.
End Mixture.

(** [calc_mixture_properties(ratio_FW_CM, TS_target=8.0, substrates=None)].
    An omitted optional argument is [None]. *)
Definition calc_mixture_properties (ratio_FW_CM : Z * Z) (TS_target : option R)
    (substrates : option Substrates) : result Mixture.t :=
  let TS_target := or_default 8.0 TS_target in
  let substrates := or_default SUBSTRATE_PROPERTIES substrates in
  let '(FW_parts, CM_parts) := ratio_FW_CM in
  let total_parts := (FW_parts + CM_parts)%Z in
  let FW_TS := Substrate.TS_percent (FW substrates) in
  let CM_TS := Substrate.TS_percent (CM substrates) in
  let FW_mass := IZR FW_parts * FW_TS in
  let CM_mass := IZR CM_parts * CM_TS in
  let total_mass := FW_mass + CM_mass in
  FW_frac <- truediv FW_mass total_mass ;;
  CM_frac <- truediv CM_mass total_mass ;;
  FW_share <- int_truediv FW_parts total_parts ;;
  CM_share <- int_truediv CM_parts total_parts ;;
  Ok {| Mixture.ratio := str_int FW_parts ++ ":" ++ str_int CM_parts;
        Mixture.FW_percent := FW_share * 100.0;
        Mixture.CM_percent := CM_share * 100.0;
        Mixture.pH :=
          FW_frac * Substrate.pH (FW substrates) + CM_frac * Substrate.pH (CM substrates);
        Mixture.TS_percent := TS_target;
        Mixture.VS_percent :=
          FW_frac * Substrate.VS_percent (FW substrates)
          + CM_frac * Substrate.VS_percent (CM substrates);
        Mixture.C_N :=
          FW_frac * Substrate.C_N (FW substrates) + CM_frac * Substrate.C_N (CM substrates);
        Mixture.sCOD_g_L :=
          FW_frac * Substrate.sCOD_g_L (FW substrates)
          + CM_frac * Substrate.sCOD_g_L (CM substrates);
        Mixture.tCOD_g_L :=
          FW_frac * Substrate.tCOD_g_L (FW substrates)
          + CM_frac * Substrate.tCOD_g_L (CM substrates) |}.

(** ** The Modified Gompertz curve *)

(** [gompertz_curve(t, G0, k_max, lambda_)].  The rate coefficient
    [k_max * e / G0] is a division of Python floats and is evaluated once,
    before [t] is broadcast. *)
Definition gompertz_curve (t : arraylike) (G0 k_max lambda_ : R) : result arraylike :=
  let e := Np.e in
  coef <- truediv (k_max * e) G0 ;;
  let exponent := broadcast (fun ti => coef * (lambda_ - ti) + 1) t in
  let G := broadcast (fun x => G0 * x) (np_exp (broadcast Ropp (np_exp exponent))) in
  Ok G.

(** The closed form of the paper (Eq. 3), as the documentation writes it. *)
Definition gompertz_closed_form (t G0 k_max lambda_ : R) : R :=
  G0 * exp (- exp ((k_max * exp 1 / G0) * (lambda_ - t) + 1)).

(** ** The simulation driver *)

(** What a run of [simulate] does that a caller could observe besides its
    result: the evaluations of the curve. *)
Inductive event : Type :=
| CurveEval (t : arraylike) (G0 k_max lambda_ : R).

(** A computation that logs events and may raise. *)
Definition eff (A : Type) : Type := (list event * result A)%type.

#[export] Instance eff_monad : Monad eff := {
  ret := fun A a => ([], Ok a);
  bind := fun A B m k =>
    match m with
    | (log, Ok a) => let '(log', r) := k a in (log ++ log', r)
    | (log, Raise e) => (log, Raise e)
    end
}.

Definition lift {A : Type} (r : result A) : eff A := ([], r).

Definition raise {A : Type} (e : exn) : eff A := ([], Raise e).

(** A call of [gompertz_curve], logged. *)
Definition call_gompertz_curve (t : arraylike) (G0 k_max lambda_ : R) : eff arraylike :=
  ([CurveEval t G0 k_max lambda_], gompertz_curve t G0 k_max lambda_).

(** The text of the [ValueError] raised for an unknown ratio name. *)
Definition unknown_ratio_message (ratio_name : string) (params : dict Gompertz.t) : string :=
  ("Proporção desconhecida: " ++ ratio_name ++ ". Disponíveis: "
   ++ repr_list (keys params))%string.

(** [simulate(ratio_name, t_max=None, n_points=None, params=None, substrates=None)]. *)
Definition simulate (ratio_name : string) (t_max : option R) (n_points : option Z)
    (params : option (dict Gompertz.t)) (substrates : option Substrates)
    : eff (arraylike * arraylike) :=
  let params := or_default GOMPERTZ_PARAMS params in
  let t_max := or_default SimulationParams.t_max t_max in
  let n_points := or_default SimulationParams.n_points n_points in
  if negb (contains ratio_name params) then
    raise (ValueError (unknown_ratio_message ratio_name params))
  else
    param_set <- lift (getitem params ratio_name) ;;
    let G0 := Gompertz.G0 param_set in
    let k_max := Gompertz.k_max param_set in
    let lambda_ := Gompertz.lambda_ param_set in
    t <- lift (linspace 0 t_max n_points) ;;
    G <- call_gompertz_curve t G0 k_max lambda_ ;;
    ret (t, G).

(** ** Vocabulary of the properties *)

(** An error raised by an explicit guard of the module ([raise ValueError]),
    as opposed to a failure of the arithmetic. *)
Definition validation_error (e : exn) : Prop :=
  match e with
  | ValueError _ => True
  | _ => False
  end.

(** The blended properties of a mixture are those of the substrate [s]:
    pH, volatile solids, C/N and the two CODs. *)
Definition blended_as (m : Mixture.t) (s : Substrate.t) : Prop :=
  Mixture.pH m = Substrate.pH s /\
  Mixture.VS_percent m = Substrate.VS_percent s /\
  Mixture.C_N m = Substrate.C_N s /\
  Mixture.sCOD_g_L m = Substrate.sCOD_g_L s /\
  Mixture.tCOD_g_L m = Substrate.tCOD_g_L s.

(** [s] occurs in [m]. *)
Definition occurs_in (s m : string) : Prop :=
  exists pre post : string, m = (pre ++ s ++ post)%string.

(** [f] does not decrease along [t >= 0]. *)
Definition nondecreasing_from_0 (f : R -> R) : Prop :=
  forall t1 t2 : R, 0 <= t1 -> t1 <= t2 -> f t1 <= f t2.

(** [f t] tends to [l] as [t] grows without bound. *)
Definition tends_to (f : R -> R) (l : R) : Prop :=
  forall eps : R, 0 < eps -> exists T : R, forall t : R, T < t -> Rabs (f t - l) < eps.

(** [x] is within relative tolerance [tol] of [y]. *)
Definition within_tolerance (tol x y : R) : Prop :=
  Rabs (x - y) <= tol * Rabs y.

(** ** Certified lower bounds of the exponential

    [exp q] is bounded from below by [(1 + q / 2^n) ^ (2^n)], evaluated in
    fixed-point arithmetic with every squaring rounded down.  An upper bound
    of [exp q] is the inverse of a lower bound of [exp (- q)]. *)

Module Fixed.

Definition scale : Z := 1000000000000000000%Z.

(** The real number a fixed-point integer stands for. *)
Definition to_R (a : Z) : R := IZR a / IZR scale.

Definition sq_down (a : Z) : Z := (a * a / scale)%Z.

(** [1 + (num / den) / 2^n], rounded down. *)
Definition start (num den : Z) (n : nat) : Z :=
  let d := (den * 2 ^ Z.of_nat n)%Z in
  (scale * (d + num) / d)%Z.

Definition exp_lower (num den : Z) (n : nat) : Z :=
  Nat.iter n sq_down (start num den n).

End Fixed.

(** ** Vocabulary of the further properties *)

(** [x] lies between [a] and [b], in either order. *)
Definition between (x a b : R) : Prop := Rmin a b <= x <= Rmax a b.

(** Every blended property of [m] lies between the values of the two
    substrates. *)
Definition blended_between (m : Mixture.t) (s1 s2 : Substrate.t) : Prop :=
  between (Mixture.pH m) (Substrate.pH s1) (Substrate.pH s2) /\
  between (Mixture.VS_percent m) (Substrate.VS_percent s1) (Substrate.VS_percent s2) /\
  between (Mixture.C_N m) (Substrate.C_N s1) (Substrate.C_N s2) /\
  between (Mixture.sCOD_g_L m) (Substrate.sCOD_g_L s1) (Substrate.sCOD_g_L s2) /\
  between (Mixture.tCOD_g_L m) (Substrate.tCOD_g_L s1) (Substrate.tCOD_g_L s2).

(** Two mixture records carry the same numbers (their ['ratio'] texts may
    differ). *)
Definition same_figures (m1 m2 : Mixture.t) : Prop :=
  Mixture.FW_percent m1 = Mixture.FW_percent m2 /\
  Mixture.CM_percent m1 = Mixture.CM_percent m2 /\
  Mixture.pH m1 = Mixture.pH m2 /\
  Mixture.TS_percent m1 = Mixture.TS_percent m2 /\
  Mixture.VS_percent m1 = Mixture.VS_percent m2 /\
  Mixture.C_N m1 = Mixture.C_N m2 /\
  Mixture.sCOD_g_L m1 = Mixture.sCOD_g_L m2 /\
  Mixture.tCOD_g_L m1 = Mixture.tCOD_g_L m2.

(** Two outcomes of [calc_mixture_properties] agree: the same figures, or
    the same exception. *)
Definition same_outcome (r1 r2 : result Mixture.t) : Prop :=
  match r1, r2 with
  | Ok m1, Ok m2 => same_figures m1 m2
  | Raise e1, Raise e2 => e1 = e2
  | _, _ => False
  end.

(** The slope of the closed form at time [t]. *)
Definition gompertz_rate (t G0 k_max lambda_ : R) : R :=
  let y := exp ((k_max * exp 1 / G0) * (lambda_ - t) + 1) in
  k_max * exp 1 * y * exp (- y).


(** [n] evenly spaced points from [start] to [stop]. *)
Definition even_grid (start stop : R) (n : nat) : list R :=
  map (fun i => start + INR i * (stop - start) / INR (n - 1)) (seq 0 n).

(** The two assignments of [print_ratio_info] that turn a food-waste
    percentage back into parts out of eight:
    [FW_parts = FW_percent / 12.5] and [CM_parts = (100 - FW_percent) / 12.5]. *)
Definition approx_parts (FW_percent : R) : R * R :=
  (FW_percent / 12.5, (100 - FW_percent) / 12.5).

(** ** The curve on binary64 floats *)

Module Binary64.

Import PrimFloat.

Local Open Scope float_scope.
Set Warnings "-inexact-float".

(** [x / y] on floats. *)
Definition truediv (x y : float) : result float :=
  if (y =? 0) then Raise ZeroDivisionError else Ok (x / y).

(** [np.e]. *)
Definition e : float := 2.718281828459045.

(** [np.exp] at the arguments where IEEE 754 fixes its value: 1 at either
    zero, [+0] at minus infinity, infinity at infinity, NaN at NaN.  At any
    other argument the value depends on the rounding of the library, and
    the result is [None]. *)
Definition np_exp (x : float) : option float :=
  if is_nan x then Some nan
  else if is_zero x then Some 1
  else if (x =? infinity) then Some infinity
  else if (x =? neg_infinity) then Some 0
  else None.

(** [gompertz_curve(t, G0, k_max, lambda_)] on scalar floats, operation for
    operation; [None] when [np.exp] is called where the model leaves it
    open. *)
Definition gompertz_curve (t G0 k_max lambda_ : float) : result (option float) :=
  let e := Binary64.e in
  coef <- truediv (k_max * e) G0 ;;
  let exponent := coef * (lambda_ - t) + 1 in
  Ok (match np_exp exponent with
      | Some y =>
          match np_exp (- y) with
          | Some z => Some (G0 * z)
          | None => None
          end
      | None => None
      end).

(** [0 < v < G0] on floats. *)
Definition strictly_between (v G0 : float) : bool := (0 <? v) && (v <? G0).

(** Neither NaN nor an infinity. *)
Definition finite (x : float) : bool := negb (is_nan x) && negb (is_infinity x).

Set Warnings "inexact-float".

End Binary64.

(** * Properties *)

(** ** Python arithmetic *)

Lemma truediv_nonzero (x y : R) : y <> 0 -> truediv x y = Ok (x / y).
Proof.
  intros Hy. unfold truediv. destruct (Req_dec_T y 0) as [Heq | _]; [contradiction | reflexivity].
Qed.

Lemma truediv_zero (x : R) : truediv x 0 = Raise ZeroDivisionError.
Proof.
  unfold truediv. destruct (Req_dec_T 0 0) as [_ | Hne]; [reflexivity | now elim Hne].
Qed.

Lemma int_truediv_nonzero (a b : Z) : b <> 0%Z -> int_truediv a b = Ok (IZR a / IZR b).
Proof.
  intros Hb. unfold int_truediv. apply Z.eqb_neq in Hb. now rewrite Hb.
Qed.

(** ** Mixture properties *)

Section MixtureFacts.

Variable TS_target : option R.
Variable substrates : option Substrates.

Let subs : Substrates := or_default SUBSTRATE_PROPERTIES substrates.
Let FW_TS : R := Substrate.TS_percent (FW subs).
Let CM_TS : R := Substrate.TS_percent (CM subs).

(** The record built once both divisions by the total mass and both
    divisions by the total part count go through. *)
Lemma calc_mixture_properties_ok (FW_parts CM_parts : Z) :
  IZR FW_parts * FW_TS + IZR CM_parts * CM_TS <> 0 ->
  (FW_parts + CM_parts)%Z <> 0%Z ->
  let total_mass := IZR FW_parts * FW_TS + IZR CM_parts * CM_TS in
  let FW_frac := IZR FW_parts * FW_TS / total_mass in
  let CM_frac := IZR CM_parts * CM_TS / total_mass in
  calc_mixture_properties (FW_parts, CM_parts) TS_target substrates =
  Ok {| Mixture.ratio := str_int FW_parts ++ ":" ++ str_int CM_parts;
        Mixture.FW_percent := IZR FW_parts / IZR (FW_parts + CM_parts) * 100.0;
        Mixture.CM_percent := IZR CM_parts / IZR (FW_parts + CM_parts) * 100.0;
        Mixture.pH :=
          FW_frac * Substrate.pH (FW subs) + CM_frac * Substrate.pH (CM subs);
        Mixture.TS_percent := or_default 8.0 TS_target;
        Mixture.VS_percent :=
          FW_frac * Substrate.VS_percent (FW subs) + CM_frac * Substrate.VS_percent (CM subs);
        Mixture.C_N :=
          FW_frac * Substrate.C_N (FW subs) + CM_frac * Substrate.C_N (CM subs);
        Mixture.sCOD_g_L :=
          FW_frac * Substrate.sCOD_g_L (FW subs) + CM_frac * Substrate.sCOD_g_L (CM subs);
        Mixture.tCOD_g_L :=
          FW_frac * Substrate.tCOD_g_L (FW subs) + CM_frac * Substrate.tCOD_g_L (CM subs) |}.
Proof.
  intros Hmass Hparts. cbv zeta.
  unfold calc_mixture_properties. cbv zeta. fold subs. fold FW_TS. fold CM_TS.
  rewrite !truediv_nonzero by exact Hmass.
  cbn [bind result_monad].
  rewrite !int_truediv_nonzero by exact Hparts.
  reflexivity.
Qed.

(** A zero total mass stops the call at its first division. *)
Lemma calc_mixture_properties_zero_mass (FW_parts CM_parts : Z) :
  IZR FW_parts * FW_TS + IZR CM_parts * CM_TS = 0 ->
  calc_mixture_properties (FW_parts, CM_parts) TS_target substrates = Raise ZeroDivisionError.
Proof.
  intros Hmass.
  unfold calc_mixture_properties. cbv zeta. fold subs. fold FW_TS. fold CM_TS.
  rewrite Hmass, truediv_zero. reflexivity.
Qed.

End MixtureFacts.

(** C3, as stated, fails: for the ratio (0, 0) the call does fail, but with
    Python's [ZeroDivisionError], raised by the division
    [FW_mass / total_mass]; no guard of the module raises a validation error
    for it. *)
Lemma calc_mixture_zero_ratio_not_validation_error :
  calc_mixture_properties (0, 0)%Z None None = Raise ZeroDivisionError /\
  ~ (exists e : exn,
       calc_mixture_properties (0, 0)%Z None None = Raise e /\ validation_error e).
Proof.
  assert (H : calc_mixture_properties (0, 0)%Z None None = Raise ZeroDivisionError).
  { apply calc_mixture_properties_zero_mass. lra. }
  split; [exact H |].
  intros [e [He Hv]]. rewrite H in He. inversion He; subst e. exact Hv.
Qed.

(** C3, amended: for the ratio (0, 0), whatever the target and the
    substrates, [calc_mixture_properties] fails with [ZeroDivisionError] (the
    total mass is zero and the first division by it raises); no mixture
    record is returned. *)
Theorem calc_mixture_zero_ratio_raises (TS_target : option R) (substrates : option Substrates) :
  calc_mixture_properties (0, 0)%Z TS_target substrates = Raise ZeroDivisionError.
Proof.
  apply calc_mixture_properties_zero_mass. lra.
Qed.

(** C2, as stated, fails on the total solids: the pure food-waste mixture
    (1, 0) of the built-in table reports the target 8.0, not the substrate's
    own 27.4. *)
Lemma calc_mixture_pure_FW_TS_is_target :
  ~ (exists m : Mixture.t,
       calc_mixture_properties (1, 0)%Z None None = Ok m /\
       blended_as m (FW SUBSTRATE_PROPERTIES) /\
       Mixture.TS_percent m = Substrate.TS_percent (FW SUBSTRATE_PROPERTIES)).
Proof.
  intros [m [Hm [_ HTS]]].
  rewrite calc_mixture_properties_ok in Hm; cbn; try lra; try lia.
  inversion Hm; subst m. cbn in HTS. lra.
Qed.

(** C2, amended: when the substrate's own total solids are not zero, the
    mixture (1, 0) has the pH, volatile solids, C/N, soluble and total COD of
    the pure food-waste substrate, and the mixture (0, 1) those of the pure
    cow-manure substrate; the total-solids field is the target in both. *)
Theorem calc_mixture_pure_substrates (TS_target : option R) (substrates : option Substrates) :
  let subs := or_default SUBSTRATE_PROPERTIES substrates in
  Substrate.TS_percent (FW subs) <> 0 ->
  Substrate.TS_percent (CM subs) <> 0 ->
  (exists m : Mixture.t,
     calc_mixture_properties (1, 0)%Z TS_target substrates = Ok m /\
     blended_as m (FW subs) /\
     Mixture.TS_percent m = or_default 8.0 TS_target) /\
  (exists m : Mixture.t,
     calc_mixture_properties (0, 1)%Z TS_target substrates = Ok m /\
     blended_as m (CM subs) /\
     Mixture.TS_percent m = or_default 8.0 TS_target).
Proof.
  intros subs HFW HCM. split.
  - eexists. split.
    + apply calc_mixture_properties_ok; [fold subs; lra | lia].
    + fold subs. unfold blended_as. cbn.
      repeat split; field; lra.
  - eexists. split.
    + apply calc_mixture_properties_ok; [fold subs; lra | lia].
    + fold subs. unfold blended_as. cbn.
      repeat split; field; lra.
Qed.

Lemma calc_mixture_pure_substrates_witness :
  (exists m : Mixture.t,
     calc_mixture_properties (1, 0)%Z (Some 8.0) None = Ok m /\
     blended_as m (FW SUBSTRATE_PROPERTIES) /\
     Mixture.TS_percent m = 8.0) /\
  (exists m : Mixture.t,
     calc_mixture_properties (0, 1)%Z (Some 8.0) None = Ok m /\
     blended_as m (CM SUBSTRATE_PROPERTIES) /\
     Mixture.TS_percent m = 8.0).
Proof.
  apply (calc_mixture_pure_substrates (Some 8.0) None); cbn; lra.
Defined.

(** C9: for non-negative parts with a positive total mass the call returns a
    record, and its [TS_percent] field is the [TS_target] argument (8.0 when
    omitted), whatever the ratio and the substrates' own total solids. *)
Theorem calc_mixture_TS_is_target (FW_parts CM_parts : Z) (TS_target : option R)
    (substrates : option Substrates) :
  let subs := or_default SUBSTRATE_PROPERTIES substrates in
  (0 <= FW_parts)%Z ->
  (0 <= CM_parts)%Z ->
  0 < IZR FW_parts * Substrate.TS_percent (FW subs)
      + IZR CM_parts * Substrate.TS_percent (CM subs) ->
  exists m : Mixture.t,
    calc_mixture_properties (FW_parts, CM_parts) TS_target substrates = Ok m /\
    Mixture.TS_percent m = or_default 8.0 TS_target.
Proof.
  intros subs HFW HCM Hmass.
  assert (Hparts : (FW_parts + CM_parts)%Z <> 0%Z).
  { intros H0.
    assert (FW_parts = 0%Z) by lia. assert (CM_parts = 0%Z) by lia.
    subst FW_parts CM_parts. lra. }
  eexists. split.
  - apply calc_mixture_properties_ok; [fold subs; lra | exact Hparts].
  - reflexivity.
Qed.

Lemma calc_mixture_TS_is_target_witness :
  exists m : Mixture.t,
    calc_mixture_properties (6, 2)%Z (Some 8.0) None = Ok m /\
    Mixture.TS_percent m = 8.0.
Proof.
  apply (calc_mixture_TS_is_target 6 2 (Some 8.0) None); cbn; try lia; lra.
Defined.

(** ** The Modified Gompertz curve *)

Lemma exp_monotone (x y : R) : x <= y -> exp x <= exp y.
Proof.
  intros [Hlt | Heq].
  - left. now apply exp_increasing.
  - subst y. apply Rle_refl.
Qed.

(** [exp (- y)] lies strictly between 0 and 1 for [y > 0]. *)
Lemma exp_neg_lt_1 (y : R) : 0 < y -> exp (- y) < 1.
Proof.
  intros Hy. rewrite <- exp_0. apply exp_increasing. lra.
Qed.

(** The code computes the closed form, elementwise, unless [G0] is zero. *)
Lemma gompertz_curve_eq (t : arraylike) (G0 k_max lambda_ : R) :
  gompertz_curve t G0 k_max lambda_ =
  if Req_dec_T G0 0 then Raise ZeroDivisionError
  else Ok (broadcast (fun ti => gompertz_closed_form ti G0 k_max lambda_) t).
Proof.
  unfold gompertz_curve, truediv. cbv zeta.
  destruct (Req_dec_T G0 0) as [Hz | Hnz]; [reflexivity |].
  cbn [bind result_monad]. f_equal.
  destruct t as [x | xs]; cbn [np_exp broadcast].
  - reflexivity.
  - rewrite !map_map. reflexivity.
Qed.

Lemma gompertz_curve_scalar (t G0 k_max lambda_ : R) :
  G0 <> 0 ->
  gompertz_curve (Scalar t) G0 k_max lambda_ =
  Ok (Scalar (gompertz_closed_form t G0 k_max lambda_)).
Proof.
  intros Hnz. rewrite gompertz_curve_eq.
  destruct (Req_dec_T G0 0) as [Hz | _]; [contradiction | reflexivity].
Qed.

Section ClosedForm.

Variables G0 k_max lambda_ : R.
Hypothesis G0_pos : 0 < G0.

Lemma closed_form_pos (t : R) : 0 < gompertz_closed_form t G0 k_max lambda_.
Proof.
  unfold gompertz_closed_form. apply Rmult_lt_0_compat; [exact G0_pos | apply exp_pos].
Qed.

Lemma closed_form_lt_G0 (t : R) : gompertz_closed_form t G0 k_max lambda_ < G0.
Proof.
  unfold gompertz_closed_form.
  set (y := exp (k_max * exp 1 / G0 * (lambda_ - t) + 1)).
  assert (Hy : 0 < y) by apply exp_pos.
  pose proof (exp_neg_lt_1 y Hy) as H1. nra.
Qed.

(** The gap to the asymptote is at most [G0] times the inner exponential. *)
Lemma closed_form_gap (t : R) :
  G0 - gompertz_closed_form t G0 k_max lambda_
  <= G0 * exp (k_max * exp 1 / G0 * (lambda_ - t) + 1).
Proof.
  unfold gompertz_closed_form.
  set (y := exp (k_max * exp 1 / G0 * (lambda_ - t) + 1)).
  pose proof (exp_ineq1_le (- y)) as H1. nra.
Qed.

Hypothesis k_max_nonneg : 0 <= k_max.

Lemma rate_coefficient_nonneg : 0 <= k_max * exp 1 / G0.
Proof.
  pose proof (exp_pos 1) as He.
  apply Rmult_le_pos.
  - apply Rmult_le_pos; lra.
  - left. now apply Rinv_0_lt_compat.
Qed.

Lemma closed_form_monotone (t1 t2 : R) :
  t1 <= t2 ->
  gompertz_closed_form t1 G0 k_max lambda_ <= gompertz_closed_form t2 G0 k_max lambda_.
Proof.
  intros Ht. unfold gompertz_closed_form.
  pose proof rate_coefficient_nonneg as Ha.
  set (a := k_max * exp 1 / G0) in *.
  apply Rmult_le_compat_l; [lra |].
  apply exp_monotone, Ropp_le_contravar, exp_monotone. nra.
Qed.

Lemma closed_form_tends_to_G0 :
  0 < k_max ->
  tends_to (fun t => gompertz_closed_form t G0 k_max lambda_) G0.
Proof.
  intros Hk eps Heps.
  pose proof (exp_pos 1) as He.
  set (a := k_max * exp 1 / G0).
  assert (Ha : 0 < a).
  { unfold a. apply Rmult_lt_0_compat; [nra | now apply Rinv_0_lt_compat]. }
  assert (Hq : 0 < eps / G0) by (apply Rdiv_lt_0_compat; lra).
  exists (lambda_ + (1 - ln (eps / G0)) / a).
  intros t Ht.
  pose proof (closed_form_lt_G0 t) as Hlt.
  pose proof (closed_form_gap t) as Hgap. fold a in Hgap.
  rewrite Rabs_left by lra.
  assert (Hexp : a * (lambda_ - t) + 1 < ln (eps / G0)).
  { assert (Hd : (1 - ln (eps / G0)) / a < t - lambda_) by lra.
    apply (Rmult_lt_compat_l a) in Hd; [| exact Ha].
    replace (a * ((1 - ln (eps / G0)) / a)) with (1 - ln (eps / G0)) in Hd by (field; lra).
    lra. }
  apply exp_increasing in Hexp. rewrite exp_ln in Hexp by exact Hq.
  assert (HG : G0 * exp (a * (lambda_ - t) + 1) < eps).
  { apply (Rmult_lt_compat_l G0) in Hexp; [| exact G0_pos].
    replace (G0 * (eps / G0)) with eps in Hexp by (field; lra). exact Hexp. }
  lra.
Qed.

End ClosedForm.

(** C1: for every time (a scalar or an array of times), rate and lag, and
    every ultimate yield other than zero, where the closed form has no value,
    [gompertz_curve] returns [G0 * exp (- exp ((k_max * e / G0) * (lambda - t) + 1))]
    at each time. *)
Theorem gompertz_curve_closed_form (t : arraylike) (G0 k_max lambda_ : R) :
  G0 <> 0 ->
  gompertz_curve t G0 k_max lambda_ =
  Ok (broadcast
        (fun ti => G0 * exp (- exp ((k_max * exp 1 / G0) * (lambda_ - ti) + 1))) t).
Proof.
  intros Hnz. rewrite gompertz_curve_eq.
  destruct (Req_dec_T G0 0) as [Hz | _]; [contradiction | reflexivity].
Qed.

Lemma gompertz_curve_closed_form_witness :
  gompertz_curve (Array [0; 10]) 326.53 26.96 0.43 =
  Ok (Array [326.53 * exp (- exp ((26.96 * exp 1 / 326.53) * (0.43 - 0) + 1));
             326.53 * exp (- exp ((26.96 * exp 1 / 326.53) * (0.43 - 10) + 1))]).
Proof.
  apply (gompertz_curve_closed_form (Array [0; 10]) 326.53 26.96 0.43). lra.
Defined.

(** C4, as stated, fails: a negative ultimate yield, rate and lag are not
    refused; the curve is evaluated on them. *)
Lemma gompertz_curve_accepts_negative_inputs :
  ~ (forall t G0 k_max lambda_ : R,
       G0 <= 0 -> exists e : exn, gompertz_curve (Scalar t) G0 k_max lambda_ = Raise e) /\
  gompertz_curve (Scalar 0) (-1) (-1) (-1) =
  Ok (Scalar (gompertz_closed_form 0 (-1) (-1) (-1))).
Proof.
  assert (H : gompertz_curve (Scalar 0) (-1) (-1) (-1) =
              Ok (Scalar (gompertz_closed_form 0 (-1) (-1) (-1)))).
  { apply gompertz_curve_scalar. lra. }
  split; [| exact H].
  intros Hall. destruct (Hall 0 (-1) (-1) (-1)) as [e He]; [lra |].
  rewrite H in He. discriminate He.
Qed.

(** C4, amended: [gompertz_curve] checks none of its inputs.  It fails
    exactly when [G0] is zero, with the [ZeroDivisionError] of
    [k_max * e / G0], and returns the curve for every other [G0], whatever
    the signs of [G0], [k_max] and [lambda]. *)
Theorem gompertz_curve_fails_iff_G0_zero (t : arraylike) (G0 k_max lambda_ : R) :
  (G0 = 0 /\ gompertz_curve t G0 k_max lambda_ = Raise ZeroDivisionError) \/
  (G0 <> 0 /\
   gompertz_curve t G0 k_max lambda_ =
   Ok (broadcast (fun ti => gompertz_closed_form ti G0 k_max lambda_) t)).
Proof.
  rewrite gompertz_curve_eq.
  destruct (Req_dec_T G0 0) as [Hz | Hnz].
  - left. split; [exact Hz | reflexivity].
  - right. split; [exact Hnz | reflexivity].
Qed.

(** C7: for every valid parameter set the curve at the end of the lag phase
    is strictly below the ultimate yield. *)
Theorem gompertz_curve_at_lag_below_G0 (G0 k_max lambda_ : R) :
  0 < G0 -> 0 <= k_max -> 0 <= lambda_ ->
  exists v : R,
    gompertz_curve (Scalar lambda_) G0 k_max lambda_ = Ok (Scalar v) /\ v < G0.
Proof.
  intros HG _ _. eexists. split.
  - apply gompertz_curve_scalar. lra.
  - now apply closed_form_lt_G0.
Qed.

Lemma gompertz_curve_at_lag_below_G0_witness :
  exists v : R,
    gompertz_curve (Scalar 0.43) 326.53 26.96 0.43 = Ok (Scalar v) /\ v < 326.53.
Proof.
  apply (gompertz_curve_at_lag_below_G0 326.53 26.96 0.43); lra.
Defined.

Section Binary64Facts.

Import PrimFloat.
Set Warnings "-inexact-float".

(** C10, as stated, fails on the floats the code computes with: for finite
    inputs and a positive [G0] the returned value can be [G0] itself, or 0.
    With [k_max = 1e10] the exponent at [t = 1e308] overflows to minus
    infinity, where [np.exp] is 0, and [np.exp (-0.0)] is 1, so the product
    is exactly [G0]; at [t = -1e308] the exponent is plus infinity and the
    product is exactly 0. *)
Lemma gompertz_curve_binary64_reaches_bounds :
  ~ (forall t G0 k_max lambda_ v : PrimFloat.float,
       Binary64.finite t = true ->
       Binary64.finite k_max = true ->
       Binary64.finite lambda_ = true ->
       PrimFloat.ltb 0%float G0 = true ->
       Binary64.gompertz_curve t G0 k_max lambda_ = Ok (Some v) ->
       Binary64.strictly_between v G0 = true) /\
  Binary64.gompertz_curve 1e308%float 326.53%float 1e10%float 0.43%float
  = Ok (Some 326.53%float) /\
  Binary64.gompertz_curve (-1e308)%float 326.53%float 1e10%float 0.43%float
  = Ok (Some 0%float).
Proof.
  assert (Hhi : Binary64.gompertz_curve 1e308%float 326.53%float 1e10%float 0.43%float
                = Ok (Some 326.53%float)) by (vm_compute; reflexivity).
  assert (Hlo : Binary64.gompertz_curve (-1e308)%float 326.53%float 1e10%float 0.43%float
                = Ok (Some 0%float)) by (vm_compute; reflexivity).
  split; [| split; assumption].
  intros Hall.
  assert (Hb : Binary64.strictly_between 326.53%float 326.53%float = true).
  { apply (Hall 1e308%float 326.53%float 1e10%float 0.43%float);
      solve [vm_compute; reflexivity | exact Hhi]. }
  vm_compute in Hb. discriminate Hb.
Qed.

Set Warnings "inexact-float".

End Binary64Facts.

(** C10, amended: in exact arithmetic, for a positive ultimate yield and any
    time, rate and lag, the value of the curve is strictly between 0 and
    [G0]: the exact curve never reaches its asymptote. *)
Theorem gompertz_curve_strictly_between (t G0 k_max lambda_ : R) :
  0 < G0 ->
  exists v : R,
    gompertz_curve (Scalar t) G0 k_max lambda_ = Ok (Scalar v) /\ 0 < v /\ v < G0.
Proof.
  intros HG. eexists. split; [| split].
  - apply gompertz_curve_scalar. lra.
  - now apply closed_form_pos.
  - now apply closed_form_lt_G0.
Qed.

Lemma gompertz_curve_strictly_between_witness :
  exists v : R,
    gompertz_curve (Scalar 10) 326.53 26.96 0.43 = Ok (Scalar v) /\ 0 < v /\ v < 326.53.
Proof.
  apply (gompertz_curve_strictly_between 10 326.53 26.96 0.43). lra.
Defined.

(** C6, as stated, fails at [k_max = 0], which the valid range allows: the
    curve is then the constant [G0 * exp (- e)] and does not approach [G0]. *)
Lemma gompertz_curve_zero_rate_no_limit :
  ~ (exists g : R -> R,
       (forall t : R, gompertz_curve (Scalar t) 1 0 0 = Ok (Scalar (g t))) /\
       nondecreasing_from_0 g /\
       tends_to g 1).
Proof.
  intros [g [Hg [_ Hlim]]].
  destruct (Hlim (1 / 2)) as [T HT]; [lra |].
  specialize (HT (T + 1)). specialize (Hg (T + 1)).
  rewrite gompertz_curve_scalar in Hg by lra.
  inversion Hg as [Hv]. rewrite <- Hv in HT.
  unfold gompertz_closed_form in HT.
  replace (0 * exp 1 / 1 * (0 - (T + 1)) + 1) with 1 in HT by field.
  pose proof (exp_ineq1_le 1) as He.
  pose proof (exp_ineq1_le (exp 1)) as Hee.
  pose proof (exp_pos (exp 1)) as Hpos.
  assert (Hinv : exp (- exp 1) <= / 3).
  { rewrite exp_Ropp. apply Rinv_le_contravar; lra. }
  pose proof (exp_pos (- exp 1)) as Hp.
  assert (Habs : Rabs (1 * exp (- exp 1) - 1) < 1 / 2) by (apply HT; lra).
  rewrite Rabs_left in Habs by lra. lra.
Qed.

(** C6, amended: for [G0 > 0], [k_max >= 0] and [lambda >= 0] the curve is
    defined at every time and non-decreasing along [t >= 0]; it tends to
    [G0] as [t] grows when [k_max > 0], and is the constant
    [G0 * exp (- e)] when [k_max = 0]. *)
Theorem gompertz_curve_monotone_and_limit (G0 k_max lambda_ : R) :
  0 < G0 -> 0 <= k_max -> 0 <= lambda_ ->
  exists g : R -> R,
    (forall t : R, gompertz_curve (Scalar t) G0 k_max lambda_ = Ok (Scalar (g t))) /\
    nondecreasing_from_0 g /\
    (0 < k_max -> tends_to g G0) /\
    (k_max = 0 -> forall t : R, g t = G0 * exp (- exp 1)).
Proof.
  intros HG Hk _.
  exists (fun t => gompertz_closed_form t G0 k_max lambda_).
  split; [| split; [| split]].
  - intros t. apply gompertz_curve_scalar. lra.
  - intros t1 t2 _ Ht. now apply closed_form_monotone.
  - intros Hpos. now apply closed_form_tends_to_G0.
  - intros Hz t. subst k_max. unfold gompertz_closed_form.
    replace (0 * exp 1 / G0 * (lambda_ - t) + 1) with 1 by (field; lra).
    reflexivity.
Qed.

Lemma gompertz_curve_monotone_and_limit_witness :
  exists g : R -> R,
    (forall t : R, gompertz_curve (Scalar t) 326.53 26.96 0.43 = Ok (Scalar (g t))) /\
    nondecreasing_from_0 g /\
    (0 < 26.96 -> tends_to g 326.53) /\
    (26.96 = 0 -> forall t : R, g t = 326.53 * exp (- exp 1)).
Proof.
  apply (gompertz_curve_monotone_and_limit 326.53 26.96 0.43); lra.
Defined.

(** ** Certified lower bounds of the exponential *)

Section FixedPoint.

Import Fixed.

Lemma scale_pos : 0 < IZR scale.
Proof. apply IZR_lt. reflexivity. Qed.

Lemma to_R_nonneg (a : Z) : (0 <= a)%Z -> 0 <= to_R a.
Proof.
  intros Ha. unfold to_R. apply IZR_le in Ha.
  pose proof scale_pos as HS.
  apply Rmult_le_pos; [exact Ha | left; now apply Rinv_0_lt_compat].
Qed.

Lemma sq_down_nonneg (a : Z) : (0 <= sq_down a)%Z.
Proof.
  unfold sq_down. apply Z.div_pos; [apply Z.square_nonneg | reflexivity].
Qed.

(** Squaring in fixed point never exceeds the square. *)
Lemma sq_down_sound (a : Z) : to_R (sq_down a) <= to_R a * to_R a.
Proof.
  pose proof scale_pos as HS.
  assert (Hz : (scale * (a * a / scale) <= a * a)%Z).
  { apply Z.mul_div_le. reflexivity. }
  apply IZR_le in Hz. rewrite !mult_IZR in Hz.
  unfold to_R, sq_down.
  apply (Rmult_le_reg_r (IZR scale * IZR scale)); [nra |].
  replace (IZR (a * a / scale) / IZR scale * (IZR scale * IZR scale))
    with (IZR scale * IZR (a * a / scale)) by (field; lra).
  replace (IZR a / IZR scale * (IZR a / IZR scale) * (IZR scale * IZR scale))
    with (IZR a * IZR a) by (field; lra).
  exact Hz.
Qed.

(** [n] squarings of a lower bound of [exp x] bound [exp (2^n * x)]. *)
Lemma iter_sq_down_sound (n : nat) (a : Z) (x : R) :
  (0 <= a)%Z -> to_R a <= exp x ->
  (0 <= Nat.iter n sq_down a)%Z /\ to_R (Nat.iter n sq_down a) <= exp (2 ^ n * x).
Proof.
  intros Ha Hx. induction n as [| n [IHpos IHle]].
  - cbn [Nat.iter pow]. rewrite Rmult_1_l. split; assumption.
  - cbn [Nat.iter]. split; [apply sq_down_nonneg |].
    set (b := Nat.iter n sq_down a) in *.
    pose proof (sq_down_sound b) as Hsq.
    pose proof (to_R_nonneg b IHpos) as Hb.
    replace (2 ^ S n * x) with (2 ^ n * x + 2 ^ n * x) by (cbn [pow]; ring).
    rewrite exp_plus.
    apply Rle_trans with (1 := Hsq).
    apply Rmult_le_compat; assumption.
Qed.

Lemma start_sound (num den : Z) (n : nat) :
  (0 < den)%Z ->
  to_R (start num den n) <= 1 + IZR num / IZR den / 2 ^ n.
Proof.
  intros Hden.
  pose proof scale_pos as HS.
  assert (Hpow : 0 < 2 ^ n) by (apply pow_lt; lra).
  assert (HdenR : 0 < IZR den) by now apply IZR_lt.
  unfold to_R, start. cbv zeta.
  set (d := (den * 2 ^ Z.of_nat n)%Z).
  assert (Hd : (0 < d)%Z) by (unfold d; lia).
  assert (HdR : IZR d = IZR den * 2 ^ n).
  { unfold d. rewrite mult_IZR, <- pow_IZR. reflexivity. }
  assert (Hz : (d * (scale * (d + num) / d) <= scale * (d + num))%Z).
  { apply Z.mul_div_le. exact Hd. }
  apply IZR_le in Hz. rewrite !mult_IZR, plus_IZR in Hz.
  set (q := IZR (scale * (d + num) / d)) in *.
  rewrite HdR in Hz.
  apply (Rmult_le_reg_r (IZR scale * (IZR den * 2 ^ n))).
  { apply Rmult_lt_0_compat; [exact HS | apply Rmult_lt_0_compat; assumption]. }
  replace (q / IZR scale * (IZR scale * (IZR den * 2 ^ n)))
    with (IZR den * 2 ^ n * q) by (field; lra).
  replace ((1 + IZR num / IZR den / 2 ^ n) * (IZR scale * (IZR den * 2 ^ n)))
    with (IZR scale * (IZR den * 2 ^ n + IZR num)) by (field; lra).
  exact Hz.
Qed.

(** The evaluator is sound: it returns a lower bound of [exp (num / den)]. *)
Lemma exp_lower_sound (num den : Z) (n : nat) :
  (0 < den)%Z ->
  (0 <= den * 2 ^ Z.of_nat n + num)%Z ->
  to_R (exp_lower num den n) <= exp (IZR num / IZR den).
Proof.
  intros Hden Hnum.
  assert (Hpow : 0 < 2 ^ n) by (apply pow_lt; lra).
  assert (Hstart : (0 <= start num den n)%Z).
  { unfold start. cbv zeta. apply Z.div_pos; [| lia].
    apply Z.mul_nonneg_nonneg; [discriminate | exact Hnum]. }
  pose proof (start_sound num den n Hden) as Hs.
  pose proof (exp_ineq1_le (IZR num / IZR den / 2 ^ n)) as He.
  destruct (iter_sq_down_sound n (start num den n) (IZR num / IZR den / 2 ^ n))
    as [_ Hle]; [exact Hstart | lra |].
  replace (2 ^ n * (IZR num / IZR den / 2 ^ n)) with (IZR num / IZR den) in Hle
    by (field; split; first [apply not_0_IZR; lia | apply Rgt_not_eq, Hpow]).
  exact Hle.
Qed.

(** An upper bound of [exp (num / den)] from a lower bound of its inverse:
    [exp (num / den) * L <= 1] for the lower bound [L] of [exp (- num / den)]. *)
Lemma exp_upper_sound (num den : Z) (n : nat) :
  (0 < den)%Z ->
  (0 <= den * 2 ^ Z.of_nat n - num)%Z ->
  exp (IZR num / IZR den) * to_R (exp_lower (- num) den n) <= 1.
Proof.
  intros Hden Hnum.
  pose proof (exp_lower_sound (- num) den n Hden) as Hlo.
  replace (IZR (- num) / IZR den) with (- (IZR num / IZR den)) in Hlo
    by (rewrite opp_IZR; field; apply not_0_IZR; lia).
  pose proof (exp_pos (IZR num / IZR den)) as Hp.
  assert (Hone : exp (IZR num / IZR den) * exp (- (IZR num / IZR den)) = 1).
  { rewrite <- exp_plus, Rplus_opp_r. apply exp_0. }
  rewrite <- Hone. apply Rmult_le_compat_l; [lra |].
  apply Hlo. lia.
Qed.

(** The two bounds at a real [x] given with its fraction. *)
Lemma exp_lower_at (num den : Z) (n : nat) (x : R) :
  (0 < den)%Z ->
  (0 <=? den * 2 ^ Z.of_nat n + num)%Z = true ->
  x = IZR num / IZR den ->
  to_R (exp_lower num den n) <= exp x.
Proof.
  intros Hden Hnum ->. apply exp_lower_sound; [exact Hden | now apply Z.leb_le].
Qed.

Lemma exp_upper_at (num den : Z) (n : nat) (x : R) :
  (0 < den)%Z ->
  (0 <=? den * 2 ^ Z.of_nat n - num)%Z = true ->
  x = IZR num / IZR den ->
  exp x * to_R (exp_lower (- num) den n) <= 1.
Proof.
  intros Hden Hnum ->. apply exp_upper_sound; [exact Hden | now apply Z.leb_le].
Qed.

End FixedPoint.

Ltac eval_fixed H :=
  match type of H with
  | context [Fixed.exp_lower ?num ?den ?n] =>
      let v := eval vm_compute in (Fixed.exp_lower num den n) in
      replace (Fixed.exp_lower num den n) with v in H by (vm_compute; reflexivity);
      unfold Fixed.to_R, Fixed.scale in H
  end.

(** [exp_lower_bound H x num den n] adds [H : L <= exp x], and
    [exp_upper_bound H x num den n] adds [H : exp x * L <= 1], for the
    decimal [x = num / den] and a computed rational [L]. *)
Ltac exp_lower_bound H x num den n :=
  assert (H := exp_lower_at num den n x ltac:(reflexivity)
                 ltac:(vm_compute; reflexivity) ltac:(lra));
  eval_fixed H.

Ltac exp_upper_bound H x num den n :=
  assert (H := exp_upper_at num den n x ltac:(reflexivity)
                 ltac:(vm_compute; reflexivity) ltac:(lra));
  eval_fixed H.

(** The curve of the optimal ratio after 25 days: 322.97 mL/g VS, the
    [323.0] of the documentation, about 3.56 below the ultimate yield. *)
Lemma optimal_yield_at_25_days :
  322.9738 < gompertz_closed_form 25 326.53 26.96 0.43 < 322.9739.
Proof.
  unfold gompertz_closed_form.
  exp_lower_bound He1 1 1%Z 1%Z 30%nat.
  exp_upper_bound He2 1 1%Z 1%Z 30%nat.
  set (E := 26.96 * exp 1 / 326.53 * (0.43 - 25) + 1).
  assert (HE : -4.5143769 <= E <= -4.5143767) by (unfold E; lra).
  clearbody E. clear He1 He2.
  exp_lower_bound Hy1 (-4.5143769) (-45143769)%Z 10000000%Z 30%nat.
  exp_upper_bound Hy2 (-4.5143767) (-45143767)%Z 10000000%Z 30%nat.
  assert (Hy : 0.01095042 <= exp E <= 0.01095043).
  { pose proof (exp_monotone (-4.5143769) E ltac:(lra)).
    pose proof (exp_monotone E (-4.5143767) ltac:(lra)).
    lra. }
  set (y := exp E) in *. clearbody y. clear Hy1 Hy2 HE.
  exp_lower_bound Hg1 (-0.01095043) (-1095043)%Z 100000000%Z 30%nat.
  exp_upper_bound Hg2 (-0.01095042) (-1095042)%Z 100000000%Z 30%nat.
  pose proof (exp_monotone (-0.01095043) (- y) ltac:(lra)).
  pose proof (exp_monotone (- y) (-0.01095042) ltac:(lra)).
  lra.
Qed.

(** ** Strings and dicts *)

Local Open Scope string_scope.

Lemma append_assoc (a b c : string) : (a ++ b) ++ c = a ++ (b ++ c).
Proof.
  induction a as [| ch a IH]; cbn; [reflexivity | now rewrite IH].
Qed.

Lemma occurs_in_self (s : string) : occurs_in s s.
Proof.
  exists "", "". cbn. induction s as [| ch s IH]; cbn; [reflexivity | now rewrite <- IH].
Qed.

Lemma occurs_in_app_r (s a m : string) : occurs_in s m -> occurs_in s (a ++ m).
Proof.
  intros [pre [post ->]]. exists (a ++ pre), post. now rewrite append_assoc.
Qed.

Lemma occurs_in_app_l (s m b : string) : occurs_in s m -> occurs_in s (m ++ b).
Proof.
  intros [pre [post ->]]. exists pre, (post ++ b). now rewrite !append_assoc.
Qed.

(** Every element of a list occurs in its [join]. *)
Lemma join_occurs (sep s : string) (l : list string) :
  In s l -> occurs_in s (join sep l).
Proof.
  induction l as [| s0 l IH]; intros Hin; [contradiction |].
  destruct l as [| s1 l'].
  - destruct Hin as [-> | []]. apply occurs_in_self.
  - change (join sep (s0 :: s1 :: l')) with (s0 ++ sep ++ join sep (s1 :: l')).
    destruct Hin as [-> | Hin].
    + apply occurs_in_app_l, occurs_in_self.
    + now apply occurs_in_app_r, occurs_in_app_r, IH.
Qed.

Lemma repr_list_occurs (k : string) (l : list string) :
  In k l -> occurs_in (repr_str k) (repr_list l).
Proof.
  intros Hin. unfold repr_list.
  apply occurs_in_app_r, occurs_in_app_l, join_occurs, in_map, Hin.
Qed.

Local Close Scope string_scope.

Lemma contains_false (V : Type) (k : string) (d : dict V) :
  ~ In k (keys d) -> contains k d = false.
Proof.
  intros Hnot. unfold contains.
  destruct (existsb (String.eqb k) (keys d)) eqn:Hex; [| reflexivity].
  apply existsb_exists in Hex. destruct Hex as [k' [Hin Heq]].
  apply String.eqb_eq in Heq. subst k'. contradiction.
Qed.

Lemma getitem_ok_contains (V : Type) (d : dict V) (k : string) (v : V) :
  getitem d k = Ok v -> contains k d = true.
Proof.
  unfold contains, keys.
  induction d as [| [k' v'] d IH]; cbn; intros Hget; [discriminate |].
  destruct (String.eqb k k'); [reflexivity | now apply IH].
Qed.

(** ** The time grid *)

Lemma last_set_last (y : list R) (stop : R) :
  y <> [] -> last (map Some (set_last y stop)) None = Some stop.
Proof.
  induction y as [| x y IH]; intros Hne; [contradiction |].
  destruct y as [| x' y']; [reflexivity |].
  change (set_last (x :: x' :: y') stop) with (x :: set_last (x' :: y') stop).
  cbn [map]. destruct (set_last (x' :: y') stop) eqn:Hs.
  - discriminate (IH ltac:(discriminate)).
  - cbn [map] in IH |- *. cbn [last]. apply IH. discriminate.
Qed.

Lemma last_map (f : R -> R) (y : list R) :
  last (map Some (map f y)) None = option_map f (last (map Some y) None).
Proof.
  induction y as [| x y IH]; [reflexivity |].
  destruct y as [| x' y']; [reflexivity |].
  cbn [map last] in IH |- *. exact IH.
Qed.

(** With at least two samples the grid is returned and ends at [stop]. *)
Lemma linspace_last (start stop : R) (num : Z) :
  (1 < num)%Z ->
  exists y : list R,
    linspace start stop num = Ok (Array y) /\ last_entry (Array y) = Some stop.
Proof.
  intros Hnum. unfold linspace. cbv zeta.
  destruct (Z.ltb_spec num 0) as [Hneg | _]; [lia |].
  destruct (Z.ltb_spec 1 num) as [_ | Hle]; [| lia].
  eexists. split; [reflexivity |].
  cbn [last_entry]. apply last_set_last.
  intros Hnil. apply (f_equal (@length R)) in Hnil.
  rewrite length_map in Hnil.
  assert (Hlen : length (arange num) = Z.to_nat num).
  { unfold arange. now rewrite length_map, length_seq. }
  destruct (0 <? num - 1)%Z; [destruct (Req_dec_T _ 0) |];
    rewrite length_map, Hlen in Hnil; cbn in Hnil; lia.
Qed.

(** ** The simulation driver *)

Section SimulateFacts.

Variable ratio_name : string.
Variable t_max : option R.
Variable n_points : option Z.
Variable params : option (dict Gompertz.t).
Variable substrates : option Substrates.

Let table : dict Gompertz.t := or_default GOMPERTZ_PARAMS params.
Let horizon : R := or_default SimulationParams.t_max t_max.
Let samples : Z := or_default SimulationParams.n_points n_points.

(** An unknown name stops the run at the guard, with an empty log. *)
Lemma simulate_unknown :
  contains ratio_name table = false ->
  simulate ratio_name t_max n_points params substrates =
  ([], Raise (ValueError (unknown_ratio_message ratio_name table))).
Proof.
  intros Hc. unfold simulate. cbv zeta. fold table. rewrite Hc. reflexivity.
Qed.

(** A known name with a grid of at least two points and a nonzero ultimate
    yield: one evaluation of the curve, whose last entry is the closed form
    at the horizon. *)
Lemma simulate_known (p : Gompertz.t) :
  getitem table ratio_name = Ok p ->
  (1 < samples)%Z ->
  Gompertz.G0 p <> 0 ->
  exists t G : arraylike,
    simulate ratio_name t_max n_points params substrates =
    ([CurveEval t (Gompertz.G0 p) (Gompertz.k_max p) (Gompertz.lambda_ p)], Ok (t, G)) /\
    last_entry t = Some horizon /\
    last_entry G =
    Some (gompertz_closed_form horizon
            (Gompertz.G0 p) (Gompertz.k_max p) (Gompertz.lambda_ p)).
Proof.
  intros Hget Hn HG0.
  destruct (linspace_last 0 horizon samples Hn) as [y [Hlin Hlast]].
  exists (Array y).
  exists (Array (map (fun ti => gompertz_closed_form ti
                        (Gompertz.G0 p) (Gompertz.k_max p) (Gompertz.lambda_ p)) y)).
  split; [| split].
  - unfold simulate. cbv zeta. fold table. fold horizon. fold samples.
    rewrite (getitem_ok_contains _ _ _ _ Hget), Hget, Hlin.
    cbn [negb lift bind eff_monad call_gompertz_curve ret app].
    rewrite gompertz_curve_eq.
    destruct (Req_dec_T (Gompertz.G0 p) 0) as [Hz | _]; [contradiction |].
    reflexivity.
  - exact Hlast.
  - cbn [last_entry] in Hlast |- *. rewrite last_map, Hlast. reflexivity.
Qed.

End SimulateFacts.

(** The run [simulate('Ratio-6_2')], over 25 days with 200 points. *)
Lemma simulate_optimal_run :
  exists t G : arraylike,
    simulate "Ratio-6_2" None None None None =
    ([CurveEval t 326.53 26.96 0.43], Ok (t, G)) /\
    last_entry t = Some 25 /\
    last_entry G = Some (gompertz_closed_form 25 326.53 26.96 0.43).
Proof.
  apply (simulate_known "Ratio-6_2" None None None None
           (Gompertz.mk 326.53 26.96 0.43 75.0 "ÓTIMO: RA 75% + EB 25%")).
  - reflexivity.
  - reflexivity.
  - cbn. lra.
Qed.

(** C5: for every ratio name that is not a key of the parameter table (the
    built-in one or the override, its keys being plain text), [simulate]
    stops at its guard: it raises the [ValueError] for an unknown ratio,
    whose message repeats the name and lists every valid name, and it has
    evaluated no curve. *)
Theorem simulate_unknown_ratio (ratio_name : string) (t_max : option R)
    (n_points : option Z) (params : option (dict Gompertz.t))
    (substrates : option Substrates) :
  let table := or_default GOMPERTZ_PARAMS params in
  let message := unknown_ratio_message ratio_name table in
  forallb plain_str (keys table) = true ->
  ~ In ratio_name (keys table) ->
  simulate ratio_name t_max n_points params substrates = ([], Raise (ValueError message)) /\
  occurs_in ratio_name message /\
  (forall k : string, In k (keys table) -> occurs_in (repr_str k) message).
Proof.
  intros table message _ Hnot. split; [| split].
  - apply simulate_unknown, contains_false, Hnot.
  - unfold message, unknown_ratio_message.
    apply occurs_in_app_r, occurs_in_app_l, occurs_in_self.
  - intros k Hk. unfold message, unknown_ratio_message.
    now apply occurs_in_app_r, occurs_in_app_r, occurs_in_app_r, repr_list_occurs.
Qed.

Lemma simulate_unknown_ratio_witness :
  let message := unknown_ratio_message "Ratio-5_3" GOMPERTZ_PARAMS in
  simulate "Ratio-5_3" None None None None = ([], Raise (ValueError message)) /\
  occurs_in "Ratio-5_3" message /\
  (forall k : string, In k (keys GOMPERTZ_PARAMS) -> occurs_in (repr_str k) message).
Proof.
  apply (simulate_unknown_ratio "Ratio-5_3" None None None None).
  - reflexivity.
  - cbn. intuition discriminate.
Defined.

(** C8, as stated, fails: the final entry of [simulate('Ratio-6_2')] is below
    326.53 but not close to it, not even within one percent, a tolerance far
    wider than any floating tolerance. *)
Lemma simulate_optimal_final_not_near_G0 :
  ~ (exists (log : list event) (t G : arraylike) (v : R),
       simulate "Ratio-6_2" (Some 25) (Some 200%Z) None None = (log, Ok (t, G)) /\
       last_entry G = Some v /\
       within_tolerance (1 / 100) v 326.53 /\
       v < 326.53).
Proof.
  intros [log [t [G [v [Hrun [Hlast [Hnear _]]]]]]].
  destruct simulate_optimal_run as [t' [G' [Hrun' [_ Hlast']]]].
  change (simulate "Ratio-6_2" (Some 25) (Some 200%Z) None None)
    with (simulate "Ratio-6_2" None None None None) in Hrun.
  rewrite Hrun' in Hrun. inversion Hrun; subst log t G.
  rewrite Hlast' in Hlast. inversion Hlast as [Hv].
  pose proof optimal_yield_at_25_days as Hb. rewrite Hv in Hb.
  unfold within_tolerance in Hnear.
  rewrite Rabs_left in Hnear by lra.
  rewrite Rabs_right in Hnear by lra.
  lra.
Qed.

(** C8, amended: [simulate('Ratio-6_2')], that is with [t_max = 25] and
    [n_points = 200], evaluates the curve once and returns a yield array
    whose final entry is strictly less than [G0 = 326.53]: it lies between
    322.97 and 322.98, more than 3.5 below [G0]. *)
Theorem simulate_optimal_final_yield :
  simulate "Ratio-6_2" (Some 25) (Some 200%Z) None None =
  simulate "Ratio-6_2" None None None None /\
  exists (t G : arraylike) (v : R),
    simulate "Ratio-6_2" None None None None = ([CurveEval t 326.53 26.96 0.43], Ok (t, G)) /\
    last_entry G = Some v /\
    v < 326.53 /\
    322.97 < v < 322.98 /\
    3.5 < 326.53 - v.
Proof.
  split; [reflexivity |].
  destruct simulate_optimal_run as [t [G [Hrun [_ Hlast]]]].
  exists t, G, (gompertz_closed_form 25 326.53 26.96 0.43).
  pose proof optimal_yield_at_25_days as Hb.
  repeat split; try assumption; lra.
Qed.

(** * Further properties *)

(** ** Mixture properties: outcomes, shares and weights *)

Section MixtureOutcomes.

Variables FW_parts CM_parts : Z.
Variable TS_target : option R.
Variable substrates : option Substrates.

Let subs : Substrates := or_default SUBSTRATE_PROPERTIES substrates.
Let total_mass : R :=
  IZR FW_parts * Substrate.TS_percent (FW subs)
  + IZR CM_parts * Substrate.TS_percent (CM subs).

(** A nonzero mass with a zero part count passes the two divisions by the
    mass and stops at the division by the part count. *)
Lemma calc_mixture_properties_zero_parts :
  total_mass <> 0 ->
  (FW_parts + CM_parts)%Z = 0%Z ->
  calc_mixture_properties (FW_parts, CM_parts) TS_target substrates = Raise ZeroDivisionError.
Proof.
  intros Hmass Hparts.
  unfold calc_mixture_properties. cbv zeta. fold subs. fold total_mass.
  rewrite !truediv_nonzero by exact Hmass.
  cbn [bind result_monad]. rewrite Hparts. reflexivity.
Qed.

End MixtureOutcomes.

(** X1: a ratio whose two parts add up to zero, such as (0, 0) or (1, -1),
    makes [calc_mixture_properties] raise [ZeroDivisionError], whatever the
    target and the substrates: at the division by the total mass when that
    is zero, and otherwise at the division by the total part count.  The
    parts are taken below [2^1023] in size, where Python converts an int to
    a float. *)
Theorem calc_mixture_zero_part_count_raises (FW_parts CM_parts : Z)
    (TS_target : option R) (substrates : option Substrates) :
  (FW_parts + CM_parts)%Z = 0%Z ->
  (Z.abs FW_parts < 2 ^ 1023)%Z ->
  calc_mixture_properties (FW_parts, CM_parts) TS_target substrates = Raise ZeroDivisionError.
Proof.
  intros Hparts _.
  set (subs := or_default SUBSTRATE_PROPERTIES substrates).
  destruct (Req_dec_T (IZR FW_parts * Substrate.TS_percent (FW subs)
                       + IZR CM_parts * Substrate.TS_percent (CM subs)) 0) as [Hz | Hnz].
  - now apply calc_mixture_properties_zero_mass.
  - now apply calc_mixture_properties_zero_parts.
Qed.

Lemma calc_mixture_zero_part_count_raises_witness :
  calc_mixture_properties (1, -1)%Z None None = Raise ZeroDivisionError.
Proof.
  apply (calc_mixture_zero_part_count_raises 1 (-1) None None); reflexivity.
Defined.

(** A mix of two values with non-negative weights that add up to one lies
    between them. *)
Lemma convex_between (wa wb p q : R) :
  0 <= wa -> 0 <= wb -> wa + wb = 1 -> between (wa * p + wb * q) p q.
Proof.
  intros Ha Hb Hsum. unfold between, Rmin, Rmax.
  assert (Hwb : wb = 1 - wa) by lra. subst wb.
  destruct (Rle_dec p q) as [Hpq | Hqp]; split; nra.
Qed.

(** X2: in exact arithmetic, when the total mass and the total part count
    are not zero, the two by-part shares of the returned record add up to
    100, and for non-negative parts each lies between 0 and 100.  (Binary64
    rounds each share, so the computed sum can miss 100 in the last digit.) *)
Theorem calc_mixture_shares (FW_parts CM_parts : Z) (TS_target : option R)
    (substrates : option Substrates) :
  let subs := or_default SUBSTRATE_PROPERTIES substrates in
  IZR FW_parts * Substrate.TS_percent (FW subs)
  + IZR CM_parts * Substrate.TS_percent (CM subs) <> 0 ->
  (FW_parts + CM_parts)%Z <> 0%Z ->
  exists m : Mixture.t,
    calc_mixture_properties (FW_parts, CM_parts) TS_target substrates = Ok m /\
    Mixture.FW_percent m + Mixture.CM_percent m = 100 /\
    ((0 <= FW_parts)%Z -> (0 <= CM_parts)%Z ->
     0 <= Mixture.FW_percent m <= 100 /\ 0 <= Mixture.CM_percent m <= 100).
Proof.
  intros subs Hmass Hparts.
  eexists. split; [now apply calc_mixture_properties_ok |].
  cbn [Mixture.FW_percent Mixture.CM_percent].
  assert (HpR : IZR FW_parts + IZR CM_parts <> 0).
  { rewrite <- plus_IZR. now apply not_0_IZR. }
  rewrite plus_IZR.
  assert (Hone : IZR FW_parts / (IZR FW_parts + IZR CM_parts)
                 + IZR CM_parts / (IZR FW_parts + IZR CM_parts) = 1)
    by (field; exact HpR).
  assert (Hsum : IZR FW_parts / (IZR FW_parts + IZR CM_parts) * 100.0
                 + IZR CM_parts / (IZR FW_parts + IZR CM_parts) * 100.0 = 100) by lra.
  split; [exact Hsum |].
  intros HFW HCM. apply IZR_le in HFW, HCM.
  assert (Hpos : 0 < IZR FW_parts + IZR CM_parts) by lra.
  assert (Hinv : 0 < / (IZR FW_parts + IZR CM_parts)) by now apply Rinv_0_lt_compat.
  assert (H1 : 0 <= IZR FW_parts / (IZR FW_parts + IZR CM_parts) * 100.0).
  { unfold Rdiv. apply Rmult_le_pos; [apply Rmult_le_pos |]; lra. }
  assert (H2 : 0 <= IZR CM_parts / (IZR FW_parts + IZR CM_parts) * 100.0).
  { unfold Rdiv. apply Rmult_le_pos; [apply Rmult_le_pos |]; lra. }
  lra.
Qed.

Lemma calc_mixture_shares_witness :
  exists m : Mixture.t,
    calc_mixture_properties (6, 2)%Z None None = Ok m /\
    Mixture.FW_percent m + Mixture.CM_percent m = 100 /\
    ((0 <= 6)%Z -> (0 <= 2)%Z ->
     0 <= Mixture.FW_percent m <= 100 /\ 0 <= Mixture.CM_percent m <= 100).
Proof.
  apply (calc_mixture_shares 6 2 None None); [cbn; lra | lia].
Defined.

(** X3: in exact arithmetic, for non-negative parts, not both zero, of
    substrates with positive total solids, the call returns a record whose
    pH, volatile solids, C/N and CODs each lie between the values of the two
    pure substrates.  (Binary64 rounding can put a blend one unit in the
    last place outside that range.) *)
Theorem calc_mixture_blend_between (FW_parts CM_parts : Z) (TS_target : option R)
    (substrates : option Substrates) :
  let subs := or_default SUBSTRATE_PROPERTIES substrates in
  (0 <= FW_parts)%Z -> (0 <= CM_parts)%Z -> (0 < FW_parts + CM_parts)%Z ->
  0 < Substrate.TS_percent (FW subs) ->
  0 < Substrate.TS_percent (CM subs) ->
  exists m : Mixture.t,
    calc_mixture_properties (FW_parts, CM_parts) TS_target substrates = Ok m /\
    blended_between m (FW subs) (CM subs).
Proof.
  intros subs HFWz HCMz Hsumz HTF HTC.
  pose proof (IZR_le _ _ HFWz) as HFW. pose proof (IZR_le _ _ HCMz) as HCM.
  pose proof (IZR_lt _ _ Hsumz) as Hsum. rewrite plus_IZR in Hsum.
  set (A := IZR FW_parts * Substrate.TS_percent (FW subs)).
  set (B := IZR CM_parts * Substrate.TS_percent (CM subs)).
  assert (HA : 0 <= A) by (unfold A; apply Rmult_le_pos; lra).
  assert (HB : 0 <= B) by (unfold B; apply Rmult_le_pos; lra).
  assert (HAB : 0 < A + B).
  { destruct HFW as [Hlt | Heq].
    - assert (0 < A) by (unfold A; apply Rmult_lt_0_compat; lra). lra.
    - assert (0 < B) by (unfold B; apply Rmult_lt_0_compat; lra). lra. }
  assert (Hinv : 0 < / (A + B)) by now apply Rinv_0_lt_compat.
  assert (Hwa : 0 <= A / (A + B)) by (unfold Rdiv; apply Rmult_le_pos; lra).
  assert (Hwb : 0 <= B / (A + B)) by (unfold Rdiv; apply Rmult_le_pos; lra).
  assert (Hone : A / (A + B) + B / (A + B) = 1) by (field; lra).
  eexists. split.
  - apply calc_mixture_properties_ok; [fold subs; fold A; fold B; lra | lia].
  - fold subs. fold A. fold B. unfold blended_between.
    cbn [Mixture.pH Mixture.VS_percent Mixture.C_N Mixture.sCOD_g_L Mixture.tCOD_g_L].
    repeat split; apply convex_between; assumption.
Qed.

Lemma calc_mixture_blend_between_witness :
  exists m : Mixture.t,
    calc_mixture_properties (6, 2)%Z None None = Ok m /\
    blended_between m (FW SUBSTRATE_PROPERTIES) (CM SUBSTRATE_PROPERTIES).
Proof.
  apply (calc_mixture_blend_between 6 2 None None); cbn; try lia; lra.
Defined.

(** X4: in exact arithmetic, multiplying both parts by the same nonzero
    integer changes nothing but the ['ratio'] text: both calls return
    records with the same figures, or both raise the same exception.
    (Binary64 rounding can make the figures of the two records differ in
    the last digits.) *)
Theorem calc_mixture_scale_invariant (c FW_parts CM_parts : Z) (TS_target : option R)
    (substrates : option Substrates) :
  c <> 0%Z ->
  same_outcome
    (calc_mixture_properties (FW_parts, CM_parts) TS_target substrates)
    (calc_mixture_properties ((c * FW_parts)%Z, (c * CM_parts)%Z) TS_target substrates).
Proof.
  intros Hc.
  set (subs := or_default SUBSTRATE_PROPERTIES substrates).
  set (A := IZR FW_parts * Substrate.TS_percent (FW subs)).
  set (B := IZR CM_parts * Substrate.TS_percent (CM subs)).
  assert (HcR : IZR c <> 0) by now apply not_0_IZR.
  assert (Hmass : IZR (c * FW_parts) * Substrate.TS_percent (FW subs)
                  + IZR (c * CM_parts) * Substrate.TS_percent (CM subs)
                  = IZR c * (A + B)).
  { rewrite !mult_IZR. unfold A, B. ring. }
  assert (Hparts : (c * FW_parts + c * CM_parts)%Z = (c * (FW_parts + CM_parts))%Z) by ring.
  destruct (Req_dec_T (A + B) 0) as [Hz | Hnz].
  - rewrite (calc_mixture_properties_zero_mass TS_target substrates FW_parts CM_parts)
      by exact Hz.
    rewrite (calc_mixture_properties_zero_mass TS_target substrates
               (c * FW_parts) (c * CM_parts)).
    + reflexivity.
    + fold subs. rewrite Hmass, Hz. ring.
  - assert (Hnz' : IZR (c * FW_parts) * Substrate.TS_percent (FW subs)
                   + IZR (c * CM_parts) * Substrate.TS_percent (CM subs) <> 0).
    { rewrite Hmass. now apply Rmult_integral_contrapositive_currified. }
    destruct (Z.eq_dec (FW_parts + CM_parts) 0) as [Hp | Hp].
    + rewrite (calc_mixture_properties_zero_parts FW_parts CM_parts TS_target substrates)
        by assumption.
      rewrite (calc_mixture_properties_zero_parts (c * FW_parts) (c * CM_parts)
                 TS_target substrates).
      * reflexivity.
      * exact Hnz'.
      * rewrite Hparts, Hp. ring.
    + assert (Hp' : (c * FW_parts + c * CM_parts)%Z <> 0%Z) by (rewrite Hparts; nia).
      rewrite (calc_mixture_properties_ok TS_target substrates FW_parts CM_parts)
        by assumption.
      rewrite (calc_mixture_properties_ok TS_target substrates
                 (c * FW_parts) (c * CM_parts)) by assumption.
      assert (HpR : IZR FW_parts + IZR CM_parts <> 0).
      { rewrite <- plus_IZR. now apply not_0_IZR. }
      fold subs. cbn [same_outcome]. unfold same_figures.
      cbn [Mixture.FW_percent Mixture.CM_percent Mixture.pH Mixture.TS_percent
           Mixture.VS_percent Mixture.C_N Mixture.sCOD_g_L Mixture.tCOD_g_L].
      rewrite !plus_IZR, !mult_IZR. fold A. fold B.
      replace (IZR c * IZR FW_parts * Substrate.TS_percent (FW subs)) with (IZR c * A)
        by (unfold A; ring).
      replace (IZR c * IZR CM_parts * Substrate.TS_percent (CM subs)) with (IZR c * B)
        by (unfold B; ring).
      assert (HAB : IZR c * A + IZR c * B <> 0).
      { replace (IZR c * A + IZR c * B) with (IZR c * (A + B)) by ring.
        now apply Rmult_integral_contrapositive_currified. }
      assert (HcP : IZR c * IZR FW_parts + IZR c * IZR CM_parts <> 0).
      { replace (IZR c * IZR FW_parts + IZR c * IZR CM_parts)
          with (IZR c * (IZR FW_parts + IZR CM_parts)) by ring.
        now apply Rmult_integral_contrapositive_currified. }
      repeat split; try reflexivity; field; split; assumption.
Qed.

Lemma calc_mixture_scale_invariant_witness :
  same_outcome
    (calc_mixture_properties (3, 1)%Z None None)
    (calc_mixture_properties ((2 * 3)%Z, (2 * 1)%Z) None None).
Proof.
  apply (calc_mixture_scale_invariant 2 3 1 None None). discriminate.
Defined.

(** ** The curve on arrays, its symmetries and its slope *)

Lemma nth_map_in_range (f : R -> R) (l : list R) (i : nat) :
  (i < length l)%nat -> nth i (map f l) 0 = f (nth i l 0).
Proof.
  intros Hi. rewrite (nth_indep (map f l) 0 (f 0)) by now rewrite length_map.
  apply map_nth.
Qed.

(** A non-decreasing function keeps a list sorted. *)
Lemma Sorted_map_monotone (f : R -> R) (l : list R) :
  (forall x y : R, x <= y -> f x <= f y) ->
  Sorted Rle l -> Sorted Rle (map f l).
Proof.
  intros Hf Hs. induction Hs as [| x l Hs IH Hhd]; cbn [map].
  - constructor.
  - constructor; [exact IH |].
    destruct Hhd as [| y l' Hxy]; cbn [map]; constructor. now apply Hf.
Qed.

(** X5: on an array of times [gompertz_curve] returns an array of the same
    length whose entry at each index is what the scalar call returns for the
    time at that index. *)
Theorem gompertz_curve_elementwise (ts : list R) (G0 k_max lambda_ : R) :
  G0 <> 0 ->
  exists Gs : list R,
    gompertz_curve (Array ts) G0 k_max lambda_ = Ok (Array Gs) /\
    length Gs = length ts /\
    forall i : nat, (i < length ts)%nat ->
      gompertz_curve (Scalar (nth i ts 0)) G0 k_max lambda_ = Ok (Scalar (nth i Gs 0)).
Proof.
  intros HG0.
  exists (map (fun ti => gompertz_closed_form ti G0 k_max lambda_) ts).
  split; [| split].
  - rewrite gompertz_curve_eq.
    destruct (Req_dec_T G0 0) as [Hz | _]; [contradiction | reflexivity].
  - apply length_map.
  - intros i Hi. rewrite gompertz_curve_scalar by exact HG0.
    now rewrite nth_map_in_range.
Qed.

Lemma gompertz_curve_elementwise_witness :
  exists Gs : list R,
    gompertz_curve (Array [0; 5; 25]) 326.53 26.96 0.43 = Ok (Array Gs) /\
    length Gs = length [0; 5; 25] /\
    forall i : nat, (i < length [0; 5; 25])%nat ->
      gompertz_curve (Scalar (nth i [0; 5; 25] 0)) 326.53 26.96 0.43
      = Ok (Scalar (nth i Gs 0)).
Proof.
  apply (gompertz_curve_elementwise [0; 5; 25] 326.53 26.96 0.43). lra.
Defined.

(** X6: for [G0 > 0] and [k_max >= 0], increasing times give non-decreasing
    yields, each strictly between 0 and [G0]. *)
Theorem gompertz_curve_sorted (ts : list R) (G0 k_max lambda_ : R) :
  0 < G0 -> 0 <= k_max -> Sorted Rle ts ->
  exists Gs : list R,
    gompertz_curve (Array ts) G0 k_max lambda_ = Ok (Array Gs) /\
    Sorted Rle Gs /\
    Forall (fun g => 0 < g < G0) Gs.
Proof.
  intros HG0 Hk Hs.
  exists (map (fun ti => gompertz_closed_form ti G0 k_max lambda_) ts).
  split; [| split].
  - rewrite gompertz_curve_eq.
    destruct (Req_dec_T G0 0) as [Hz | _]; [lra | reflexivity].
  - apply Sorted_map_monotone; [| exact Hs].
    intros x y Hxy. now apply closed_form_monotone.
  - apply Forall_map, Forall_forall. intros ti _.
    split; [now apply closed_form_pos | now apply closed_form_lt_G0].
Qed.

Lemma gompertz_curve_sorted_witness :
  exists Gs : list R,
    gompertz_curve (Array [0; 5; 25]) 326.53 26.96 0.43 = Ok (Array Gs) /\
    Sorted Rle Gs /\
    Forall (fun g => 0 < g < 326.53) Gs.
Proof.
  apply (gompertz_curve_sorted [0; 5; 25] 326.53 26.96 0.43); try lra.
  repeat constructor; lra.
Defined.

Lemma closed_form_scale (c t G0 k_max lambda_ : R) :
  c <> 0 -> G0 <> 0 ->
  gompertz_closed_form t (c * G0) (c * k_max) lambda_ =
  c * gompertz_closed_form t G0 k_max lambda_.
Proof.
  intros Hc HG0. unfold gompertz_closed_form.
  replace (c * k_max * exp 1 / (c * G0)) with (k_max * exp 1 / G0) by (field; split; assumption).
  ring.
Qed.

(** X7: in exact arithmetic the curve is homogeneous in the pair
    [(G0, k_max)]: multiplying both by the same nonzero factor multiplies
    every yield by that factor.  (Binary64 rounding keeps this only up to
    the last digits.) *)
Theorem gompertz_curve_homogeneous (c : R) (t : arraylike) (G0 k_max lambda_ : R) :
  c <> 0 -> G0 <> 0 ->
  exists G : arraylike,
    gompertz_curve t G0 k_max lambda_ = Ok G /\
    gompertz_curve t (c * G0) (c * k_max) lambda_ = Ok (broadcast (fun g => c * g) G).
Proof.
  intros Hc HG0.
  assert (HcG : c * G0 <> 0) by now apply Rmult_integral_contrapositive_currified.
  eexists. split.
  - rewrite gompertz_curve_eq.
    destruct (Req_dec_T G0 0) as [Hz | _]; [contradiction | reflexivity].
  - rewrite gompertz_curve_eq.
    destruct (Req_dec_T (c * G0) 0) as [Hz | _]; [contradiction |].
    f_equal. destruct t as [x | xs]; cbn [broadcast].
    + now rewrite closed_form_scale.
    + rewrite map_map. f_equal. apply map_ext. intros ti. now apply closed_form_scale.
Qed.

Lemma gompertz_curve_homogeneous_witness :
  exists G : arraylike,
    gompertz_curve (Array [0; 10]) 326.53 26.96 0.43 = Ok G /\
    gompertz_curve (Array [0; 10]) (2 * 326.53) (2 * 26.96) 0.43
    = Ok (broadcast (fun g => 2 * g) G).
Proof.
  apply (gompertz_curve_homogeneous 2 (Array [0; 10]) 326.53 26.96 0.43); lra.
Defined.

(** X8: in exact arithmetic the lag is a shift of the time axis: delaying
    every time and the lag by the same [s] leaves the outcome unchanged.
    (In binary64 the shifted difference [lambda - t] is rounded, so the two
    results agree only up to rounding, and not at all once [s] swamps them.) *)
Theorem gompertz_curve_lag_shift (s : R) (t : arraylike) (G0 k_max lambda_ : R) :
  gompertz_curve (broadcast (fun ti => ti + s) t) G0 k_max (lambda_ + s) =
  gompertz_curve t G0 k_max lambda_.
Proof.
  rewrite !gompertz_curve_eq.
  destruct (Req_dec_T G0 0) as [_ | _]; [reflexivity |].
  assert (Hpt : forall ti : R,
             gompertz_closed_form (ti + s) G0 k_max (lambda_ + s) =
             gompertz_closed_form ti G0 k_max lambda_).
  { intros ti. unfold gompertz_closed_form.
    replace (lambda_ + s - (ti + s)) with (lambda_ - ti) by ring. reflexivity. }
  f_equal. destruct t as [x | xs]; cbn [broadcast].
  - now rewrite Hpt.
  - rewrite map_map. f_equal. apply map_ext. exact Hpt.
Qed.

(** The slope of the closed form. *)
Lemma closed_form_derivative (t G0 k_max lambda_ : R) :
  G0 <> 0 ->
  derivable_pt_lim (fun u => gompertz_closed_form u G0 k_max lambda_) t
    (gompertz_rate t G0 k_max lambda_).
Proof.
  intros HG0. unfold gompertz_closed_form, gompertz_rate. cbv zeta.
  set (a := k_max * exp 1 / G0).
  assert (Hv : derivable_pt_lim (fun u => a * (lambda_ - u) + 1) t (- a)).
  { replace (- a) with (a * (0 - 1) + 0) by ring.
    apply (derivable_pt_lim_plus (fun u => a * (lambda_ - u)) (fct_cte 1)).
    - apply (derivable_pt_lim_scal (fun u => lambda_ - u)).
      apply (derivable_pt_lim_minus (fct_cte lambda_) id).
      + apply derivable_pt_lim_const.
      + apply derivable_pt_lim_id.
    - apply derivable_pt_lim_const. }
  assert (Hy : derivable_pt_lim (fun u => exp (a * (lambda_ - u) + 1)) t
                 (exp (a * (lambda_ - t) + 1) * - a)).
  { apply (derivable_pt_lim_comp (fun u => a * (lambda_ - u) + 1) exp);
      [exact Hv | apply derivable_pt_lim_exp]. }
  assert (Hu : derivable_pt_lim (fun u => - exp (a * (lambda_ - u) + 1)) t
                 (- (exp (a * (lambda_ - t) + 1) * - a))).
  { apply (derivable_pt_lim_opp (fun u => exp (a * (lambda_ - u) + 1))). exact Hy. }
  assert (He : derivable_pt_lim (fun u => exp (- exp (a * (lambda_ - u) + 1))) t
                 (exp (- exp (a * (lambda_ - t) + 1))
                  * - (exp (a * (lambda_ - t) + 1) * - a))).
  { apply (derivable_pt_lim_comp (fun u => - exp (a * (lambda_ - u) + 1)) exp);
      [exact Hu | apply derivable_pt_lim_exp]. }
  replace (k_max * exp 1 * exp (a * (lambda_ - t) + 1) * exp (- exp (a * (lambda_ - t) + 1)))
    with (G0 * (exp (- exp (a * (lambda_ - t) + 1))
                * - (exp (a * (lambda_ - t) + 1) * - a)))
    by (unfold a; field; exact HG0).
  apply (derivable_pt_lim_scal (fun u => exp (- exp (a * (lambda_ - u) + 1)))). exact He.
Qed.

(** [e * y * exp (- y)] never exceeds 1. *)
Lemma e_y_exp_neg_le_1 (y : R) : 0 <= y -> exp 1 * y * exp (- y) <= 1.
Proof.
  intros Hy.
  pose proof (exp_ineq1_le (y - 1)) as H1.
  pose proof (exp_pos (1 - y)) as Hp.
  assert (Hprod : exp (y - 1) * exp (1 - y) = 1).
  { rewrite <- exp_plus. replace (y - 1 + (1 - y)) with 0 by ring. apply exp_0. }
  assert (Hsplit : exp 1 * exp (- y) = exp (1 - y)).
  { rewrite <- exp_plus. reflexivity. }
  replace (exp 1 * y * exp (- y)) with (y * (exp 1 * exp (- y))) by ring.
  rewrite Hsplit. nra.
Qed.

Lemma rate_bounds (t G0 k_max lambda_ : R) :
  0 <= k_max -> 0 <= gompertz_rate t G0 k_max lambda_ <= k_max.
Proof.
  intros Hk. unfold gompertz_rate. cbv zeta.
  set (y := exp (k_max * exp 1 / G0 * (lambda_ - t) + 1)).
  assert (Hy : 0 < y) by apply exp_pos.
  pose proof (exp_pos 1) as He. pose proof (exp_pos (- y)) as Hn.
  pose proof (e_y_exp_neg_le_1 y ltac:(lra)) as Hle.
  assert (H0 : 0 <= exp 1 * y * exp (- y)).
  { apply Rmult_le_pos; [apply Rmult_le_pos |]; lra. }
  replace (k_max * exp 1 * y * exp (- y)) with (k_max * (exp 1 * y * exp (- y))) by ring.
  split; nra.
Qed.


(** X9: for [G0 > 0] and [k_max >= 0] the curve has a slope at every time,
    and the slope lies between 0 and [k_max]: the production rate never
    exceeds [k_max]. *)
Theorem gompertz_curve_rate_at_most_k_max (G0 k_max lambda_ : R) :
  0 < G0 -> 0 <= k_max ->
  exists g : R -> R,
    (forall t : R, gompertz_curve (Scalar t) G0 k_max lambda_ = Ok (Scalar (g t))) /\
    forall t : R,
      derivable_pt_lim g t (gompertz_rate t G0 k_max lambda_) /\
      0 <= gompertz_rate t G0 k_max lambda_ <= k_max.
Proof.
  intros HG0 Hk.
  exists (fun t => gompertz_closed_form t G0 k_max lambda_). split.
  - intros t. apply gompertz_curve_scalar. lra.
  - intros t. split; [apply closed_form_derivative; lra | now apply rate_bounds].
Qed.

Lemma gompertz_curve_rate_at_most_k_max_witness :
  exists g : R -> R,
    (forall t : R, gompertz_curve (Scalar t) 326.53 26.96 0.43 = Ok (Scalar (g t))) /\
    forall t : R,
      derivable_pt_lim g t (gompertz_rate t 326.53 26.96 0.43) /\
      0 <= gompertz_rate t 326.53 26.96 0.43 <= 26.96.
Proof.
  apply (gompertz_curve_rate_at_most_k_max 326.53 26.96 0.43); lra.
Defined.



(** ** The time grid and the runs of the driver *)

Lemma set_last_app (l : list R) (x stop : R) : set_last (l ++ [x]) stop = l ++ [stop].
Proof.
  induction l as [| a l IH]; [reflexivity |].
  cbn [app]. destruct (l ++ [x]) as [| b l'] eqn:Hl.
  - destruct l; discriminate Hl.
  - change (set_last (a :: b :: l') stop) with (a :: set_last (b :: l') stop).
    now rewrite IH.
Qed.

(** For every non-negative count the grid of [linspace] is the evenly spaced
    one. *)
Lemma linspace_even_grid (start stop : R) (num : Z) :
  (0 <= num)%Z ->
  linspace start stop num = Ok (Array (even_grid start stop (Z.to_nat num))).
Proof.
  intros Hnum. unfold linspace. cbv zeta.
  destruct (Z.ltb_spec num 0) as [Hneg | _]; [lia |].
  f_equal. f_equal. unfold arange, even_grid.
  remember (Z.to_nat num) as n eqn:Hn.
  assert (HnZ : num = Z.of_nat n) by lia.
  destruct n as [| [| m]].
  - replace (1 <? num)%Z with false by (symmetry; apply Z.ltb_ge; lia).
    destruct (0 <? num - 1)%Z; [destruct (Req_dec_T _ 0) |]; reflexivity.
  - replace (1 <? num)%Z with false by (symmetry; apply Z.ltb_ge; lia).
    replace (0 <? num - 1)%Z with false by (symmetry; apply Z.ltb_ge; lia).
    cbn. f_equal. unfold Rdiv. ring.
  - replace (1 <? num)%Z with true by (symmetry; apply Z.ltb_lt; lia).
    replace (0 <? num - 1)%Z with true by (symmetry; apply Z.ltb_lt; lia).
    assert (Hdiv : IZR (num - 1) = INR (S m)).
    { rewrite INR_IZR_INZ. f_equal. lia. }
    assert (Hpos : 0 < INR (S m)) by (apply lt_0_INR; lia).
    replace (S (S m) - 1)%nat with (S m) by lia.
    rewrite Hdiv.
    set (g := fun i : nat => start + INR i * (stop - start) / INR (S m)).
    assert (Hbody : forall h : R -> R,
               (forall i : nat, h (INR i) + start = g i) ->
               set_last (map (fun yi => yi + start) (map h (map (fun i => INR i)
                           (seq 0 (S (S m)))))) stop
               = map g (seq 0 (S (S m)))).
    { intros h Hh. rewrite !map_map.
      rewrite (map_ext _ g) by exact Hh.
      rewrite seq_S, map_app. cbn [map]. rewrite set_last_app.
      f_equal. f_equal. unfold g. cbn [Nat.add]. field. lra. }
    destruct (Req_dec_T ((stop - start) / INR (S m)) 0) as [Hz | Hnz].
    + apply Hbody. intros i. unfold g. field. lra.
    + apply Hbody. intros i. unfold g. field. lra.
Qed.

Lemma even_grid_length (start stop : R) (n : nat) : length (even_grid start stop n) = n.
Proof.
  unfold even_grid. now rewrite length_map, length_seq.
Qed.

Lemma even_grid_nth (start stop : R) (n i : nat) :
  (i < n)%nat ->
  nth i (even_grid start stop n) 0 = start + INR i * (stop - start) / INR (n - 1).
Proof.
  intros Hi. unfold even_grid.
  set (f := fun j : nat => start + INR j * (stop - start) / INR (n - 1)).
  rewrite (nth_indep (map f (seq 0 n)) 0 (f 0%nat)) by now rewrite length_map, length_seq.
  rewrite map_nth, seq_nth by exact Hi. reflexivity.
Qed.

Lemma Sorted_map_seq (f : nat -> R) (s len : nat) :
  (forall i : nat, f i <= f (S i)) -> Sorted Rle (map f (seq s len)).
Proof.
  intros Hf. revert s. induction len as [| len IH]; intros s; cbn [seq map].
  - constructor.
  - constructor; [apply IH |].
    destruct len; cbn [seq map]; constructor. apply Hf.
Qed.

Lemma even_grid_sorted (start stop : R) (n : nat) :
  start <= stop -> Sorted Rle (even_grid start stop n).
Proof.
  intros Hle. unfold even_grid. apply Sorted_map_seq. intros i.
  assert (Hstep : 0 <= (stop - start) / INR (n - 1)).
  { unfold Rdiv. apply Rmult_le_pos; [lra |].
    destruct (n - 1)%nat as [| m].
    - cbn [INR]. rewrite Rinv_0. lra.
    - left. apply Rinv_0_lt_compat, lt_0_INR. lia. }
  rewrite S_INR. unfold Rdiv in *. nra.
Qed.

Lemma contains_true_getitem (V : Type) (d : dict V) (k : string) :
  contains k d = true -> exists v : V, getitem d k = Ok v.
Proof.
  unfold contains, keys.
  induction d as [| [k' v'] d IH]; cbn; intros Hc; [discriminate |].
  destruct (String.eqb k k'); [now exists v' | now apply IH].
Qed.

Lemma contains_true_in (V : Type) (d : dict V) (k : string) :
  contains k d = true -> In k (keys d).
Proof.
  unfold contains. intros Hc. apply existsb_exists in Hc.
  destruct Hc as [k' [Hin Heq]]. apply String.eqb_eq in Heq. now subst k'.
Qed.

Section SimulateRuns.

Variable ratio_name : string.
Variable t_max : option R.
Variable n_points : option Z.
Variable params : option (dict Gompertz.t).
Variable substrates : option Substrates.

Let table : dict Gompertz.t := or_default GOMPERTZ_PARAMS params.
Let horizon : R := or_default SimulationParams.t_max t_max.
Let samples : Z := or_default SimulationParams.n_points n_points.

(** A known name with a negative count stops at [np.linspace]. *)
Lemma simulate_negative_count (p : Gompertz.t) :
  getitem table ratio_name = Ok p ->
  (samples < 0)%Z ->
  simulate ratio_name t_max n_points params substrates =
  ([], Raise (ValueError
                ("Number of samples, " ++ str_int samples ++ ", must be non-negative."))).
Proof.
  intros Hget Hneg.
  unfold simulate. cbv zeta. fold table. fold horizon. fold samples.
  rewrite (getitem_ok_contains _ _ _ _ Hget), Hget.
  unfold linspace. apply Z.ltb_lt in Hneg. rewrite Hneg. reflexivity.
Qed.

(** A known name with a non-negative count reaches the curve, on the evenly
    spaced grid. *)
Lemma simulate_reaches_curve (p : Gompertz.t) :
  getitem table ratio_name = Ok p ->
  (0 <= samples)%Z ->
  let t := Array (even_grid 0 horizon (Z.to_nat samples)) in
  simulate ratio_name t_max n_points params substrates =
  ([CurveEval t (Gompertz.G0 p) (Gompertz.k_max p) (Gompertz.lambda_ p)],
   if Req_dec_T (Gompertz.G0 p) 0 then Raise ZeroDivisionError
   else Ok (t, broadcast (fun ti => gompertz_closed_form ti (Gompertz.G0 p)
                                      (Gompertz.k_max p) (Gompertz.lambda_ p)) t)).
Proof.
  intros Hget Hn t.
  unfold simulate. cbv zeta. fold table. fold horizon. fold samples.
  rewrite (getitem_ok_contains _ _ _ _ Hget), Hget.
  rewrite (linspace_even_grid 0 horizon samples Hn). fold t.
  cbn [negb lift bind eff_monad call_gompertz_curve ret app].
  rewrite gompertz_curve_eq.
  destruct (Req_dec_T (Gompertz.G0 p) 0); reflexivity.
Qed.

(** X11: the outcomes of [simulate], for a table whose keys are plain text.
    An unknown name raises the [ValueError] of the guard.  A known name with a negative point count
    raises the [ValueError] of [np.linspace]; neither evaluates the curve.
    With a non-negative count the curve is evaluated once, on the evenly
    spaced grid: a zero [G0] in the parameter set raises
    [ZeroDivisionError], and any other [G0] returns the grid with the closed
    form at each of its points. *)
Theorem simulate_outcomes :
  forallb plain_str (keys table) = true ->
  (~ In ratio_name (keys table) /\
   simulate ratio_name t_max n_points params substrates =
   ([], Raise (ValueError (unknown_ratio_message ratio_name table)))) \/
  exists p : Gompertz.t,
    getitem table ratio_name = Ok p /\
    let t := Array (even_grid 0 horizon (Z.to_nat samples)) in
    let call := CurveEval t (Gompertz.G0 p) (Gompertz.k_max p) (Gompertz.lambda_ p) in
    (((samples < 0)%Z /\
      simulate ratio_name t_max n_points params substrates =
      ([], Raise (ValueError
                    ("Number of samples, " ++ str_int samples ++ ", must be non-negative.")))) \/
     ((0 <= samples)%Z /\ Gompertz.G0 p = 0 /\
      simulate ratio_name t_max n_points params substrates =
      ([call], Raise ZeroDivisionError)) \/
     ((0 <= samples)%Z /\ Gompertz.G0 p <> 0 /\
      simulate ratio_name t_max n_points params substrates =
      ([call],
       Ok (t, broadcast (fun ti => gompertz_closed_form ti (Gompertz.G0 p)
                                     (Gompertz.k_max p) (Gompertz.lambda_ p)) t)))).
Proof.
  intros _.
  destruct (contains ratio_name table) eqn:Hc.
  - right. destruct (contains_true_getitem _ _ _ Hc) as [p Hget].
    exists p. split; [exact Hget |]. cbv zeta.
    destruct (Z.lt_ge_cases samples 0) as [Hneg | Hpos].
    + left. split; [exact Hneg | now apply (simulate_negative_count p)].
    + right. rewrite (simulate_reaches_curve p Hget Hpos).
      destruct (Req_dec_T (Gompertz.G0 p) 0) as [Hz | Hnz].
      * left. repeat split; assumption.
      * right. repeat split; assumption.
  - left. split.
    + intros Hin. unfold contains in Hc.
      assert (Ht : existsb (String.eqb ratio_name) (keys table) = true).
      { apply existsb_exists. exists ratio_name. split; [exact Hin | apply String.eqb_refl]. }
      rewrite Ht in Hc. discriminate Hc.
    + now apply simulate_unknown.
Qed.

(** A valid parameter set and a non-negative count: the run succeeds. *)
Lemma simulate_valid_run (p : Gompertz.t) :
  getitem table ratio_name = Ok p ->
  (0 <= samples)%Z ->
  Gompertz.G0 p <> 0 ->
  let n := Z.to_nat samples in
  exists ts Gs : list R,
    simulate ratio_name t_max n_points params substrates =
    ([CurveEval (Array ts) (Gompertz.G0 p) (Gompertz.k_max p) (Gompertz.lambda_ p)],
     Ok (Array ts, Array Gs)) /\
    ts = even_grid 0 horizon n /\
    Gs = map (fun ti => gompertz_closed_form ti (Gompertz.G0 p)
                          (Gompertz.k_max p) (Gompertz.lambda_ p)) ts.
Proof.
  intros Hget Hn HG0 n.
  exists (even_grid 0 horizon n).
  eexists. split; [| split; reflexivity].
  rewrite (simulate_reaches_curve p Hget Hn).
  destruct (Req_dec_T (Gompertz.G0 p) 0) as [Hz | _]; [contradiction | reflexivity].
Qed.

(** X12: for a known name, a non-negative point count [n] and a nonzero
    [G0], [simulate] returns two arrays of [n] entries each: the times
    [i * t_max / (n - 1)] for [i = 0 .. n - 1] and, at the same index, the
    yield of the curve at that time. *)
Theorem simulate_samples (p : Gompertz.t) :
  getitem table ratio_name = Ok p ->
  (0 <= samples)%Z ->
  Gompertz.G0 p <> 0 ->
  let n := Z.to_nat samples in
  exists ts Gs : list R,
    snd (simulate ratio_name t_max n_points params substrates) = Ok (Array ts, Array Gs) /\
    length ts = n /\ length Gs = n /\
    forall i : nat, (i < n)%nat ->
      nth i ts 0 = INR i * horizon / INR (n - 1) /\
      gompertz_curve (Scalar (nth i ts 0))
        (Gompertz.G0 p) (Gompertz.k_max p) (Gompertz.lambda_ p)
      = Ok (Scalar (nth i Gs 0)).
Proof.
  intros Hget Hn HG0 n.
  destruct (simulate_valid_run p Hget Hn HG0) as [ts [Gs [Hrun [Hts HGs]]]].
  fold n in Hts.
  exists ts, Gs. rewrite Hrun. split; [reflexivity |].
  assert (Hlen : length ts = n) by (rewrite Hts; apply even_grid_length).
  split; [exact Hlen |]. split; [rewrite HGs, length_map; exact Hlen |].
  intros i Hi. split.
  - rewrite Hts, even_grid_nth by exact Hi. unfold Rdiv. ring.
  - rewrite gompertz_curve_scalar by exact HG0.
    rewrite HGs, nth_map_in_range by (rewrite Hlen; exact Hi). reflexivity.
Qed.

(** X13: for a valid parameter set ([G0 > 0], [k_max >= 0]), a non-negative
    horizon and a non-negative point count, the times and the yields that
    [simulate] returns are both in non-decreasing order, and every yield is
    strictly between 0 and [G0]. *)
Theorem simulate_yields_sorted (p : Gompertz.t) :
  getitem table ratio_name = Ok p ->
  (0 <= samples)%Z ->
  0 <= horizon ->
  0 < Gompertz.G0 p ->
  0 <= Gompertz.k_max p ->
  exists ts Gs : list R,
    snd (simulate ratio_name t_max n_points params substrates) = Ok (Array ts, Array Gs) /\
    Sorted Rle ts /\ Sorted Rle Gs /\
    Forall (fun g => 0 < g < Gompertz.G0 p) Gs.
Proof.
  intros Hget Hn Hh HG0 Hk.
  destruct (simulate_valid_run p Hget Hn ltac:(lra)) as [ts [Gs [Hrun [Hts HGs]]]].
  exists ts, Gs. rewrite Hrun. split; [reflexivity |].
  assert (Hsorted : Sorted Rle ts) by (rewrite Hts; now apply even_grid_sorted).
  split; [exact Hsorted |]. rewrite HGs. split.
  - apply Sorted_map_monotone; [| exact Hsorted].
    intros x y Hxy. now apply closed_form_monotone.
  - apply Forall_map, Forall_forall. intros ti _.
    split; [now apply closed_form_pos | now apply closed_form_lt_G0].
Qed.

End SimulateRuns.

Lemma simulate_outcomes_witness :
  let table := GOMPERTZ_PARAMS in
  let horizon := SimulationParams.t_max in
  let samples := (-1)%Z in
  (~ In "Ratio-6_2"%string (keys table) /\
   simulate "Ratio-6_2" None (Some samples) None None =
   ([], Raise (ValueError (unknown_ratio_message "Ratio-6_2" table)))) \/
  exists p : Gompertz.t,
    getitem table "Ratio-6_2" = Ok p /\
    let t := Array (even_grid 0 horizon (Z.to_nat samples)) in
    let call := CurveEval t (Gompertz.G0 p) (Gompertz.k_max p) (Gompertz.lambda_ p) in
    (((samples < 0)%Z /\
      simulate "Ratio-6_2" None (Some samples) None None =
      ([], Raise (ValueError
                    ("Number of samples, " ++ str_int samples ++ ", must be non-negative.")))) \/
     ((0 <= samples)%Z /\ Gompertz.G0 p = 0 /\
      simulate "Ratio-6_2" None (Some samples) None None =
      ([call], Raise ZeroDivisionError)) \/
     ((0 <= samples)%Z /\ Gompertz.G0 p <> 0 /\
      simulate "Ratio-6_2" None (Some samples) None None =
      ([call],
       Ok (t, broadcast (fun ti => gompertz_closed_form ti (Gompertz.G0 p)
                                     (Gompertz.k_max p) (Gompertz.lambda_ p)) t)))).
Proof.
  apply (simulate_outcomes "Ratio-6_2" None (Some (-1)%Z) None None). reflexivity.
Defined.

Lemma simulate_samples_witness :
  exists ts Gs : list R,
    snd (simulate "Ratio-6_2" None None None None) = Ok (Array ts, Array Gs) /\
    length ts = 200%nat /\ length Gs = 200%nat /\
    forall i : nat, (i < 200)%nat ->
      nth i ts 0 = INR i * 25 / INR 199 /\
      gompertz_curve (Scalar (nth i ts 0)) 326.53 26.96 0.43 = Ok (Scalar (nth i Gs 0)).
Proof.
  apply (simulate_samples "Ratio-6_2" None None None None
           (Gompertz.mk 326.53 26.96 0.43 75.0 "ÓTIMO: RA 75% + EB 25%")).
  - reflexivity.
  - discriminate.
  - cbn. lra.
Defined.

Lemma simulate_yields_sorted_witness :
  exists ts Gs : list R,
    snd (simulate "Ratio-6_2" None None None None) = Ok (Array ts, Array Gs) /\
    Sorted Rle ts /\ Sorted Rle Gs /\
    Forall (fun g => 0 < g < 326.53) Gs.
Proof.
  apply (simulate_yields_sorted "Ratio-6_2" None None None None
           (Gompertz.mk 326.53 26.96 0.43 75.0 "ÓTIMO: RA 75% + EB 25%")).
  - reflexivity.
  - discriminate.
  - cbn. unfold SimulationParams.t_max. lra.
  - cbn. lra.
  - cbn. lra.
Defined.

(** X14: the degenerate grids.  For a known name with a nonzero [G0], a
    point count of 0 returns two empty arrays, and a point count of 1
    returns the single time 0 with the yield at time 0, whatever the
    horizon: [t_max] is not sampled. *)
Theorem simulate_degenerate_grids (ratio_name : string) (t_max : option R)
    (params : option (dict Gompertz.t)) (substrates : option Substrates)
    (p : Gompertz.t) :
  getitem (or_default GOMPERTZ_PARAMS params) ratio_name = Ok p ->
  Gompertz.G0 p <> 0 ->
  snd (simulate ratio_name t_max (Some 0%Z) params substrates) = Ok (Array [], Array []) /\
  snd (simulate ratio_name t_max (Some 1%Z) params substrates) =
  Ok (Array [0],
      Array [gompertz_closed_form 0 (Gompertz.G0 p) (Gompertz.k_max p) (Gompertz.lambda_ p)]).
Proof.
  intros Hget HG0. split.
  - destruct (simulate_valid_run ratio_name t_max (Some 0%Z) params substrates p Hget
                ltac:(discriminate) HG0) as [ts [Gs [Hrun [Hts HGs]]]].
    rewrite Hrun, HGs, Hts. reflexivity.
  - destruct (simulate_valid_run ratio_name t_max (Some 1%Z) params substrates p Hget
                ltac:(discriminate) HG0) as [ts [Gs [Hrun [Hts HGs]]]].
    assert (Hone : ts = [0]).
    { rewrite Hts.
      change (even_grid 0 (or_default SimulationParams.t_max t_max) 1 = [0]).
      unfold even_grid. cbn [seq map Nat.sub INR]. f_equal. unfold Rdiv. ring. }
    rewrite Hrun, HGs, Hone. reflexivity.
Qed.

Lemma simulate_degenerate_grids_witness :
  snd (simulate "Ratio-6_2" (Some 25) (Some 0%Z) None None) = Ok (Array [], Array []) /\
  snd (simulate "Ratio-6_2" (Some 25) (Some 1%Z) None None) =
  Ok (Array [0], Array [gompertz_closed_form 0 326.53 26.96 0.43]).
Proof.
  apply (simulate_degenerate_grids "Ratio-6_2" (Some 25) None None
           (Gompertz.mk 326.53 26.96 0.43 75.0 "ÓTIMO: RA 75% + EB 25%")).
  - reflexivity.
  - cbn. lra.
Defined.

(** X15: every name of the built-in table runs: for each of the six ratios
    and any non-negative point count [simulate] returns that many yields, in
    non-decreasing order when the horizon is not negative, and, in exact
    arithmetic, all strictly between 0 and the ratio's [G0] (binary64
    rounding lets late yields equal [G0]).  The loop of [plot_all_ratios]
    over the table therefore never fails in [simulate]. *)
Theorem simulate_builtin_ratios (ratio_name : string) (t_max : option R)
    (n_points : option Z) (substrates : option Substrates) :
  let horizon := or_default SimulationParams.t_max t_max in
  let samples := or_default SimulationParams.n_points n_points in
  In ratio_name (keys GOMPERTZ_PARAMS) ->
  (0 <= samples)%Z ->
  exists (p : Gompertz.t) (ts Gs : list R),
    getitem GOMPERTZ_PARAMS ratio_name = Ok p /\
    snd (simulate ratio_name t_max n_points None substrates) = Ok (Array ts, Array Gs) /\
    length Gs = Z.to_nat samples /\
    Forall (fun g => 0 < g < Gompertz.G0 p) Gs /\
    (0 <= horizon -> Sorted Rle Gs).
Proof.
  intros horizon samples Hin Hn.
  assert (Hp : exists p : Gompertz.t,
             getitem GOMPERTZ_PARAMS ratio_name = Ok p /\
             0 < Gompertz.G0 p /\ 0 <= Gompertz.k_max p).
  { cbn in Hin.
    destruct Hin as [H | [H | [H | [H | [H | [H | []]]]]]]; subst ratio_name;
      eexists; (split; [reflexivity | cbn; lra]). }
  destruct Hp as [p [Hget [HG0 Hk]]].
  destruct (simulate_valid_run ratio_name t_max n_points None substrates p Hget Hn
              ltac:(lra)) as [ts [Gs [Hrun [Hts HGs]]]].
  exists p, ts, Gs. rewrite Hrun.
  split; [exact Hget | split; [reflexivity |]].
  split; [| split].
  - rewrite HGs, length_map, Hts. apply even_grid_length.
  - rewrite HGs. apply Forall_map, Forall_forall. intros ti _.
    split; [now apply closed_form_pos | now apply closed_form_lt_G0].
  - intros Hh. rewrite HGs. apply Sorted_map_monotone.
    + intros x y Hxy. now apply closed_form_monotone.
    + rewrite Hts. now apply even_grid_sorted.
Qed.

Lemma simulate_builtin_ratios_witness :
  exists (p : Gompertz.t) (ts Gs : list R),
    getitem GOMPERTZ_PARAMS "Ratio-1_7" = Ok p /\
    snd (simulate "Ratio-1_7" None None None None) = Ok (Array ts, Array Gs) /\
    length Gs = 200%nat /\
    Forall (fun g => 0 < g < Gompertz.G0 p) Gs /\
    (0 <= 25 -> Sorted Rle Gs).
Proof.
  apply (simulate_builtin_ratios "Ratio-1_7" None None None).
  - cbn. tauto.
  - discriminate.
Defined.

(** X16: the part estimate of [print_ratio_info] inverts the by-part share
    of [calc_mixture_properties] for mixtures of eight parts: from the
    ['FW_percent'] of the record of [(a, b)] with [a + b = 8] it gives back
    [a] and [b]. *)
Theorem approx_parts_recovers_ratio (FW_parts CM_parts : Z) (TS_target : option R)
    (substrates : option Substrates) :
  let subs := or_default SUBSTRATE_PROPERTIES substrates in
  (FW_parts + CM_parts = 8)%Z ->
  IZR FW_parts * Substrate.TS_percent (FW subs)
  + IZR CM_parts * Substrate.TS_percent (CM subs) <> 0 ->
  exists m : Mixture.t,
    calc_mixture_properties (FW_parts, CM_parts) TS_target substrates = Ok m /\
    approx_parts (Mixture.FW_percent m) = (IZR FW_parts, IZR CM_parts).
Proof.
  intros subs Hsum Hmass.
  eexists. split; [apply calc_mixture_properties_ok; [exact Hmass | lia] |].
  cbn [Mixture.FW_percent]. rewrite Hsum. unfold approx_parts.
  assert (HbR : IZR CM_parts = 8 - IZR FW_parts).
  { replace CM_parts with (8 - FW_parts)%Z by lia. now rewrite minus_IZR. }
  rewrite HbR. f_equal; lra.
Qed.

Lemma approx_parts_recovers_ratio_witness :
  exists m : Mixture.t,
    calc_mixture_properties (6, 2)%Z None None = Ok m /\
    approx_parts (Mixture.FW_percent m) = (IZR 6, IZR 2).
Proof.
  apply (approx_parts_recovers_ratio 6 2 None None); [reflexivity | cbn; lra].
Defined.
